(** * Workout tracker: day rotation and missed-day backfill

    A shallow embedding of the rotation engine of [src/server.ts]: the
    helper [getNextWorkoutDay], the [/api/status] handler with its gap-filling
    loop, and the [/api/complete] handler, over the [trained_days] table.

    Layout:
    - [JSDate]: the ECMAScript [Date] built-ins the handlers call;
    - [Db]: the [trained_days] table and the prepared statements run on it;
    - the handlers themselves, the seeding of the plan and the read-only
      handlers ([/api/calendar], [/api/workouts], [/api/stats]);
    - facts about each layer, then the properties of the rotation engine;
    - the rest of the server: ordering and grouping, seeding, statistics,
      and the tables the running server can come to hold. *)

From Stdlib Require Import ZArith List String Ascii Bool Lia.
From Stdlib Require Import Permutation Sorted.
Import ListNotations.
Open Scope Z_scope.

(** ** ECMAScript dates

    The [Date] built-ins the handlers call, after the day-number and
    year-number definitions of the language specification.  A [Date] built
    from a date-only string is the instant of UTC midnight of that day; it is
    represented by its day number, [getTime() / 86400000] (day 0 is
    1970-01-01).  [None] stands for an Invalid Date, whose time value is NaN.
    The server is taken to run in a zone with a fixed UTC offset, so that
    [setDate(getDate() + 1)] adds exactly one day. *)
Module JSDate.

Definition DaysInYear (y : Z) : Z :=
  if negb (y mod 4 =? 0) then 365
  else if negb (y mod 100 =? 0) then 366
  else if negb (y mod 400 =? 0) then 365
  else 366.

(** Day number of the first day of year [y]. *)
Definition DayFromYear (y : Z) : Z :=
  365 * (y - 1970) + (y - 1969) / 4 - (y - 1901) / 100 + (y - 1601) / 400.

(** The largest [y] with [DayFromYear y <= t]: the mean year length gives
    it up to one year, which the two tests settle. *)
Definition YearFromDay (t : Z) : Z :=
  let y := 1970 + (400 * t) / 146097 in
  if t <? DayFromYear y then y - 1
  else if DayFromYear (y + 1) <=? t then y + 1
  else y.

Definition DayWithinYear (t : Z) : Z := t - DayFromYear (YearFromDay t).

Definition LeapDays (y : Z) : Z := if DaysInYear y =? 366 then 1 else 0.

(** Day within the year at which month [mn] (0 for January) starts, with
    [L] the number of leap days of the year; 12 stands for the year's end. *)
Definition month_start (mn L : Z) : Z :=
  if mn <=? 0 then 0
  else if mn =? 1 then 31
  else if mn =? 2 then 59 + L
  else if mn =? 3 then 90 + L
  else if mn =? 4 then 120 + L
  else if mn =? 5 then 151 + L
  else if mn =? 6 then 181 + L
  else if mn =? 7 then 212 + L
  else if mn =? 8 then 243 + L
  else if mn =? 9 then 273 + L
  else if mn =? 10 then 304 + L
  else if mn =? 11 then 334 + L
  else 365 + L.

(** Month (0 for January) of the day [d] within a year with [L] leap days. *)
Definition month_of (d L : Z) : Z :=
  if d <? 31 then 0
  else if d <? 59 + L then 1
  else if d <? 90 + L then 2
  else if d <? 120 + L then 3
  else if d <? 151 + L then 4
  else if d <? 181 + L then 5
  else if d <? 212 + L then 6
  else if d <? 243 + L then 7
  else if d <? 273 + L then 8
  else if d <? 304 + L then 9
  else if d <? 334 + L then 10
  else 11.

Definition MonthFromDay (t : Z) : Z :=
  month_of (DayWithinYear t) (LeapDays (YearFromDay t)).

Definition DateFromDay (t : Z) : Z :=
  DayWithinYear t - month_start (MonthFromDay t) (LeapDays (YearFromDay t)) + 1.

Definition DaysInMonth (y mn : Z) : Z :=
  month_start (mn + 1) (LeapDays y) - month_start mn (LeapDays y).

(** Day number of day [d] of month [mn] (0 for January) of year [y]. *)
Definition MakeDay (y mn d : Z) : Z :=
  DayFromYear y + month_start mn (LeapDays y) + d - 1.

Definition digit (n : Z) : ascii := ascii_of_N (Z.to_N (48 + n)).

Definition pad2 (n : Z) (k : string) : string :=
  String (digit (n / 10)) (String (digit (n mod 10)) k).

Definition pad4 (n : Z) (k : string) : string :=
  pad2 (n / 100) (pad2 (n mod 100) k).

(** Years 0 to 9999 are printed as [YYYY], any other year in the expanded
    form, a sign and six digits. *)
Definition fmt_year (y : Z) (k : string) : string :=
  if (0 <=? y) && (y <=? 9999) then pad4 y k
  else String (if y <? 0 then "-"%char else "+"%char)
         (pad2 (Z.abs y / 10000) (pad4 (Z.abs y mod 10000) k)).

(** [YYYY-MM-DD], with [m] counted from 1. *)
Definition fmt_date (y m d : Z) : string :=
  fmt_year y (String "-" (pad2 m (String "-" (pad2 d EmptyString)))).

(** [date.toISOString().split('T')[0]] *)
Definition toISODate (t : Z) : string :=
  fmt_date (YearFromDay t) (MonthFromDay t + 1) (DateFromDay t).

Definition digit_val (c : ascii) : option Z :=
  let n := Z.of_N (N_of_ascii c) in
  if (48 <=? n) && (n <=? 57) then Some (n - 48) else None.

Definition num2 (a b : ascii) : option Z :=
  match digit_val a, digit_val b with
  | Some x, Some y => Some (10 * x + y)
  | _, _ => None
  end.

(** [new Date(s)] for the date-only form [YYYY-MM-DD], which is the only
    form the handlers ever store or pass.  A field out of range gives an
    Invalid Date; so does, in this model, every other string. *)
Definition parse (s : string) : option Z :=
  match s with
  | String y1 (String y2 (String y3 (String y4 (String "-"
      (String m1 (String m2 (String "-"
         (String d1 (String d2 EmptyString))))))))) =>
      match num2 y1 y2, num2 y3 y4, num2 m1 m2, num2 d1 d2 with
      | Some yh, Some yl, Some m, Some d =>
          let y := 100 * yh + yl in
          if (1 <=? m) && (m <=? 12) && (1 <=? d) && (d <=? DaysInMonth y (m - 1))
          then Some (MakeDay y (m - 1) d)
          else None
      | _, _, _, _ => None
      end
  | _ => None
  end.

(** Day numbers of 0000-01-01 and 9999-12-31. *)
Definition MIN_DAY : Z := -719528.
Definition MAX_DAY : Z := 2932896.

(** The days whose year is printed with four digits. *)
Definition in_range (t : Z) : Prop := MIN_DAY <= t <= MAX_DAY.

(** Order of two civil dates, field by field. *)
Definition civil_compare (y m d y' m' d' : Z) : comparison :=
  match y ?= y' with
  | Eq => match m ?= m' with Eq => d ?= d' | c => c end
  | c => c
  end.

End JSDate.

(** ** The [trained_days] table *)
Module Db.

(** One row of
    [trained_days (date TEXT PRIMARY KEY, planned_day INTEGER,
                   completed INTEGER DEFAULT 0, rescheduled INTEGER DEFAULT 0)];
    the two flags are stored as 0 or 1. *)
Record row : Type := mkRow {
  date : string;
  planned_day : Z;
  completed : Z;
  rescheduled : Z
}.

(** The rows in insertion order. *)
Definition table : Type := list row.

Inductive sqlite_error : Type :=
| SQLITE_CONSTRAINT_PRIMARYKEY.

(** What running a piece of handler code on a table gives: a value and the
    table afterwards, an exception that aborts the handler, or a loop that was
    cut off by its iteration bound. *)
Inductive outcome (A : Type) : Type :=
| Returns (a : A) (db : table)
| Throws (e : sqlite_error)
| OutOfFuel.

Arguments Returns {A} a db.
Arguments Throws {A} e.
Arguments OutOfFuel {A}.

Definition M (A : Type) : Type := table -> outcome A.

Definition ret {A : Type} (a : A) : M A := fun db => Returns a db.

Definition bind {A B : Type} (m : M A) (k : A -> M B) : M B :=
  fun db =>
    match m db with
    | Returns a db' => k a db'
    | Throws e => Throws e
    | OutOfFuel => OutOfFuel
    end.

Definition out_of_fuel {A : Type} : M A := fun _ => OutOfFuel.

(** [WHERE date = ?] *)
Definition has_date (d : string) (r : row) : bool := String.eqb (date r) d.

(** [WHERE completed = 1] *)
Definition is_completed (r : row) : bool := completed r =? 1.

(** [ORDER BY date DESC LIMIT 1]: the row whose date is greatest in the
    byte order of TEXT values.  The primary key makes it unique. *)
Fixpoint latest (rows : list row) : option row :=
  match rows with
  | [] => None
  | r :: rest =>
      match latest rest with
      | None => Some r
      | Some m => if String.ltb (date r) (date m) then Some m else Some r
      end
  end.

(** [SELECT * FROM trained_days ORDER BY date DESC LIMIT 1] *)
Definition select_last_entry : M (option row) :=
  fun db => Returns (latest db) db.

(** [SELECT planned_day FROM trained_days WHERE completed = 1
     ORDER BY date DESC LIMIT 1] *)
Definition select_last_completed : M (option row) :=
  fun db => Returns (latest (filter is_completed db)) db.

(** [SELECT * FROM trained_days WHERE date = ?] *)
Definition select_by_date (d : string) : M (option row) :=
  fun db => Returns (find (has_date d) db) db.

(** An INSERT: refused when a row with that date exists. *)
Definition insert_row (r : row) : M unit :=
  fun db =>
    if existsb (has_date (date r)) db
    then Throws SQLITE_CONSTRAINT_PRIMARYKEY
    else Returns tt (db ++ [r]).

(** [INSERT INTO trained_days (date, planned_day, completed, rescheduled)
     VALUES (?, ?, 0, 1)] *)
Definition insert_rescheduled (d : string) (p : Z) : M unit :=
  insert_row (mkRow d p 0 1).

(** [INSERT INTO trained_days (date, planned_day) VALUES (?, ?)]: the two
    flags take their default, 0. *)
Definition insert_planned (d : string) (p : Z) : M unit :=
  insert_row (mkRow d p 0 0).

Definition set_completed (r : row) : row :=
  mkRow (date r) (planned_day r) 1 (rescheduled r).

(** [UPDATE trained_days SET completed = 1 WHERE date = ?] *)
Definition update_completed (d : string) : M unit :=
  fun db => Returns tt (map (fun r => if has_date d r then set_completed r else r) db).

End Db.

Import Db.

Notation "x <- m ;; k" := (bind m (fun x => k))
  (at level 61, m at next level, right associativity).
Notation "m ;; k" := (bind m (fun _ => k))
  (at level 61, right associativity).

(** ** The handlers *)

(** [getNextWorkoutDay]; [%] is the remainder that takes the sign of the
    dividend. *)
Definition getNextWorkoutDay : M Z :=
  lastTrained <- select_last_completed ;;
  match lastTrained with
  | None => ret 1
  | Some r => ret (Z.rem (planned_day r) 5 + 1)
  end.

(** The [while (currentDate < todayDate)] loop of [/api/status]. *)
Fixpoint backfill (fuel : nat) (currentDate todayDate : Z) : M unit :=
  if currentDate <? todayDate then
    match fuel with
    | O => out_of_fuel
    | S fuel' =>
        let dateStr := JSDate.toISODate currentDate in
        existing <- select_by_date dateStr ;;
        match existing with
        | None =>
            plannedDay <- getNextWorkoutDay ;;
            insert_rescheduled dateStr plannedDay
        | Some _ => ret tt
        end ;;
        backfill fuel' (currentDate + 1) todayDate
    end
  else ret tt.

(** The body of [if (lastEntry && lastEntry.date < today)]: both dates are
    parsed, the first is advanced by a day, and the loop runs.  A comparison
    with an Invalid Date is false, so the loop is skipped then. *)
Definition fill_gap (lastDate today : string) : M unit :=
  match JSDate.parse lastDate, JSDate.parse today with
  | Some d, Some todayDate =>
      backfill (Z.to_nat (todayDate - (d + 1))) (d + 1) todayDate
  | _, _ => ret tt
  end.

(** [GET /api/status], with [today] the date part of the clock's ISO
    rendering; the result is the [status] object of the response. *)
Definition api_status (today : string) : M row :=
  lastEntry <- select_last_entry ;;
  match lastEntry with
  | Some e => if String.ltb (date e) today then fill_gap (date e) today else ret tt
  | None => ret tt
  end ;;
  status <- select_by_date today ;;
  match status with
  | Some r => ret r
  | None =>
      plannedDay <- getNextWorkoutDay ;;
      insert_planned today plannedDay ;;
      ret (mkRow today plannedDay 0 0)
  end.

(** [POST /api/complete]; the response is [{ success: true }]. *)
Definition api_complete (today : string) : M bool :=
  update_completed today ;;
  ret true.

(** ** The other tables and the handlers that read them *)

(** [workouts (id INTEGER PRIMARY KEY AUTOINCREMENT, day_number INTEGER,
               exercise_name TEXT, sets TEXT, reps TEXT)] *)
Module Workouts.
Record workout : Type := mkWorkout {
  id : Z;
  day_number : Z;
  exercise_name : string;
  sets : string;
  reps : string
}.
End Workouts.

(** [diets (id INTEGER PRIMARY KEY AUTOINCREMENT, meal_name TEXT, items TEXT,
            total_protein TEXT)] *)
Module Diets.
Record diet : Type := mkDiet {
  id : Z;
  meal_name : string;
  items : string;
  total_protein : string
}.
End Diets.

Definition workout : Type := Workouts.workout.
Definition diet : Type := Diets.diet.

(** The three tables the server uses. *)
Record database : Type := mkDatabase {
  workouts : list workout;
  diets : list diet;
  trained_days : table
}.

(** The rowid an INSERT is given: one more than the largest in the table,
    which is what AUTOINCREMENT does in a table nothing is deleted from. *)
Definition next_id (ids : list Z) : Z := 1 + fold_right Z.max 0 ids.

Definition initialWorkouts : list (Z * string * string * string) :=
  [ (1, "Supino", "3", "10–12"); (1, "Supino Inclinado", "3", "10–12");
    (1, "Fly", "3", "10–12"); (1, "Tríceps Corda", "3", "10–12");
    (1, "Tríceps Francês", "3", "10–12"); (1, "Tríceps Testa", "3", "10–12");
    (2, "Remada Curvada", "3", "10–12"); (2, "Remada Aberta", "3", "10–12");
    (2, "Puxada Aberta", "3", "10–12"); (2, "Rosca Scott", "3", "10–12");
    (2, "Rosca Martelo", "3", "10–12"); (2, "Rosca Direta", "3", "10–12");
    (3, "Agachamento Hack", "3", "10–12"); (3, "Cadeira Extensora", "3", "10–12");
    (3, "Adutora", "3", "10–12"); (3, "Mesa Flexora", "3", "10–12");
    (3, "Cadeira Flexora", "3", "10–12"); (3, "Leg Press", "3", "10–12");
    (4, "Crucifixo Inverso", "3", "10–12"); (4, "Elevação Frontal", "3", "10–12");
    (4, "Elevação Lateral", "3", "10–12"); (4, "Desenvolvimento", "3", "10–12");
    (5, "Tríceps Corda", "3", "10–12"); (5, "Tríceps Francês", "3", "10–12");
    (5, "Tríceps Testa", "3", "10–12"); (5, "Rosca Direta", "3", "10–12");
    (5, "Rosca Martelo", "3", "10–12"); (5, "Rosca Scott", "3", "10–12")
  ]%string.

Definition initialDiets : list (string * string * string) :=
  [ ("Café da Manhã",
     "3 ovos inteiros, 1 fatia de pão integral, 1 colher de manteiga de amendoim",
     "31g");
    ("Lanche da Manhã", "1 iogurte natural (170g), 1 scoop de whey (30g)", "30g");
    ("Almoço",
     "120g de frango grelhado, 4 colheres de arroz, 1 colher de feijão, salada verde e legumes",
     "41g");
    ("Lanche da Tarde",
     "2 ovos cozidos, 1 fatia média de batata-doce, café preto sem açúcar",
     "28g");
    ("Jantar",
     "120g de frango grelhado, 4 colheres de arroz, 1 colher de feijão, salada verde e legumes",
     "41g")
  ]%string.

(** [INSERT INTO workouts (day_number, exercise_name, sets, reps)
     VALUES (?, ?, ?, ?)] *)
Definition insertWorkout (ws : list workout) (w : Z * string * string * string)
  : list workout :=
  let '(day, name, s, r) := w in
  ws ++ [Workouts.mkWorkout (next_id (map Workouts.id ws)) day name s r].

(** [INSERT INTO diets (meal_name, items, total_protein) VALUES (?, ?, ?)] *)
Definition insertDiet (ds : list diet) (d : string * string * string)
  : list diet :=
  let '(meal, its, protein) := d in
  ds ++ [Diets.mkDiet (next_id (map Diets.id ds)) meal its protein].

(** "Seed initial data if empty": both lists are inserted when, and only
    when, [SELECT COUNT( * ) FROM workouts] is 0. *)
Definition seed (D : database) : database :=
  if Z.of_nat (List.length (workouts D)) =? 0 then
    mkDatabase (fold_left insertWorkout initialWorkouts (workouts D))
               (fold_left insertDiet initialDiets (diets D))
               (trained_days D)
  else D.

(** [ORDER BY ... ASC]: the rows in ascending order of a key, rows of equal
    key in the order the table has them. *)
Fixpoint insert_sorted {A : Type} (leb : A -> A -> bool) (x : A) (l : list A)
  : list A :=
  match l with
  | [] => [x]
  | y :: l' => if leb x y then x :: l else y :: insert_sorted leb x l'
  end.

Definition order_by {A : Type} (leb : A -> A -> bool) (l : list A) : list A :=
  fold_right (insert_sorted leb) [] l.

(** [GET /api/calendar]:
    [SELECT * FROM trained_days ORDER BY date ASC]. *)
Definition api_calendar : M (list row) :=
  fun db => Returns (order_by (fun a b => String.leb (date a) (date b)) db) db.

(** [SELECT * FROM workouts ORDER BY day_number ASC] *)
Definition select_workouts_ordered (ws : list workout) : list workout :=
  order_by (fun a b => Workouts.day_number a <=? Workouts.day_number b) ws.

(** The object [/api/workouts] builds: its keys, in the order they were
    added, each with its array. *)
Definition grouped : Type := list (Z * list workout).

(** [acc[k]] *)
Fixpoint obj_get (k : Z) (acc : grouped) : option (list workout) :=
  match acc with
  | [] => None
  | (k', v) :: rest => if k' =? k then Some v else obj_get k rest
  end.

(** [acc[k] = v] *)
Fixpoint obj_set (k : Z) (v : list workout) (acc : grouped) : grouped :=
  match acc with
  | [] => [(k, v)]
  | (k', v') :: rest =>
      if k' =? k then (k', v) :: rest else (k', v') :: obj_set k v rest
  end.

(** The reducer of [/api/workouts]:
    [if (!acc[k]) acc[k] = []; acc[k].push(curr); return acc]. *)
Definition group_push (acc : grouped) (curr : workout) : grouped :=
  let k := Workouts.day_number curr in
  let acc1 := match obj_get k acc with
              | Some _ => acc
              | None => obj_set k [] acc
              end in
  match obj_get k acc1 with
  | Some arr => obj_set k (arr ++ [curr]) acc1
  | None => acc1
  end.

(** [GET /api/workouts] *)
Definition api_workouts (ws : list workout) : grouped :=
  fold_left group_push (select_workouts_ordered ws) [].

(** [SELECT * FROM workouts WHERE day_number = ?] *)
Definition select_workouts_by_day (day : Z) (ws : list workout) : list workout :=
  filter (fun w => Workouts.day_number w =? day) ws.

(** The whole response of [GET /api/status]: the status row, the workouts
    of its planned day and the diet list. *)
Definition status_response (ws : list workout) (ds : list diet) (today : string)
  : M (row * list workout * list diet) :=
  status <- api_status today ;;
  ret (status, select_workouts_by_day (planned_day status) ws, ds).

(** [WHERE rescheduled = 1] *)
Definition is_rescheduled (r : row) : bool := rescheduled r =? 1.

(** [strftime('%w', date)]: the day of the week, 0 for Sunday, of a date in
    the form [YYYY-MM-DD]; NULL for a string that is no date.  Day 0,
    1970-01-01, was a Thursday. *)
Definition strftime_w (s : string) : option Z :=
  match JSDate.parse s with
  | Some d => Some ((d + 4) mod 7)
  | None => None
  end.

(** The order of group keys: NULL first, then the numbers. *)
Definition key_ltb (a b : option Z) : bool :=
  match a, b with
  | None, Some _ => true
  | Some x, Some y => x <? y
  | _, _ => false
  end.

Definition key_eqb (a b : option Z) : bool :=
  match a, b with
  | None, None => true
  | Some x, Some y => x =? y
  | _, _ => false
  end.

(** One more row for the group of key [k]. *)
Fixpoint bump (k : option Z) (groups : list (option Z * Z))
  : list (option Z * Z) :=
  match groups with
  | [] => [(k, 1)]
  | (k', n) :: rest =>
      if key_eqb k k' then (k', n + 1) :: rest
      else if key_ltb k k' then (k, 1) :: groups
      else (k', n) :: bump k rest
  end.

(** [SELECT key, COUNT( * ) ... GROUP BY key]: one row per key that occurs,
    in key order. *)
Definition group_count (keys : list (option Z)) : list (option Z * Z) :=
  fold_left (fun groups k => bump k groups) keys [].

Record stats : Type := mkStats {
  totalCompleted : Z;
  totalRescheduled : Z;
  weeklyConsistency : list (option Z * Z)
}.

(** [GET /api/stats] *)
Definition api_stats : M stats :=
  fun db =>
    Returns
      (mkStats
         (Z.of_nat (List.length (filter is_completed db)))
         (Z.of_nat (List.length (filter is_rescheduled db)))
         (group_count
            (map (fun r => strftime_w (date r)) (filter is_completed db))))
      db.

(** ** The server at work *)

(** [new Date().toISOString().split('T')[0]] when the clock shows [now]
    milliseconds. *)
Definition today_at (now : Z) : string := JSDate.toISODate (now / 86400000).

(** The two requests that write to [trained_days]. *)
Inductive request : Type :=
| GetStatus
| PostComplete.

(** One request, handled to its end when the clock shows [now]. *)
Definition serve (req : request) (now : Z) : M unit :=
  match req with
  | GetStatus => api_status (today_at now) ;; ret tt
  | PostComplete => api_complete (today_at now) ;; ret tt
  end.

(** The tables the server can come to hold: it starts with an empty
    [trained_days], handles its requests one after the other, and its clock
    does not run backwards nor leave the years 0000 to 9999. *)
Inductive reachable : Z -> table -> Prop :=
| reach_start (now : Z) :
    JSDate.in_range (now / 86400000) -> reachable now []
| reach_serve (now now' : Z) (db db' : table) (req : request) :
    reachable now db ->
    now <= now' -> JSDate.in_range (now' / 86400000) ->
    serve req now' db = Returns tt db' ->
    reachable now' db'.

(** ** The server's time zone

    [new Date(s)] of a date-only string is an instant of UTC, the loop's test
    and [toISOString] work on UTC too, but [getDate] and [setDate] work on
    local time.  The definitions above take the two to differ by a fixed
    offset; the ones below keep the zone, after the language specification:
    an instant is the number of milliseconds since 1970-01-01T00:00Z. *)

(** A zone: the offset in force at a UTC instant, [LocalTZA(t, true)], and
    the offset a local time is read with, [LocalTZA(t, false)], which for a
    local time that a change of offset skips or repeats is the offset before
    the change. *)
Record Zone : Type := mkZone {
  tza_utc : Z -> Z;
  tza_local : Z -> Z
}.

Definition msPerDay : Z := 86400000.

Definition LocalTime (z : Zone) (t : Z) : Z := t + tza_utc z t.

Definition UTC (z : Zone) (t : Z) : Z := t - tza_local z t.

(** [date.getDate()] *)
Definition getDate (z : Zone) (t : Z) : Z :=
  JSDate.DateFromDay (LocalTime z t / msPerDay).

(** The instant [date.setDate(dt)] gives [date]: day [dt] of the local month,
    at the local time of day it had. *)
Definition setDate (z : Zone) (t : Z) (dt : Z) : Z :=
  let tl := LocalTime z t in
  let day := tl / msPerDay in
  UTC z (JSDate.MakeDay (JSDate.YearFromDay day) (JSDate.MonthFromDay day) dt
           * msPerDay
         + tl mod msPerDay).

(** The [while (currentDate < todayDate)] loop on instants. *)
Fixpoint backfill_tz (z : Zone) (fuel : nat) (currentDate todayDate : Z)
  : M unit :=
  if currentDate <? todayDate then
    match fuel with
    | O => out_of_fuel
    | S fuel' =>
        let dateStr := JSDate.toISODate (currentDate / msPerDay) in
        existing <- select_by_date dateStr ;;
        match existing with
        | None =>
            plannedDay <- getNextWorkoutDay ;;
            insert_rescheduled dateStr plannedDay
        | Some _ => ret tt
        end ;;
        backfill_tz z fuel'
          (setDate z currentDate (getDate z currentDate + 1)) todayDate
    end
  else ret tt.

(** The body of [if (lastEntry && lastEntry.date < today)] on instants. *)
Definition fill_gap_tz (z : Zone) (fuel : nat) (lastDate today : string)
  : M unit :=
  match JSDate.parse lastDate, JSDate.parse today with
  | Some d, Some t =>
      let currentDate := d * msPerDay in
      backfill_tz z fuel
        (setDate z currentDate (getDate z currentDate + 1)) (t * msPerDay)
  | _, _ => ret tt
  end.

(** [GET /api/status] on a server in zone [z], its loop cut off after [fuel]
    turns. *)
Definition api_status_tz (z : Zone) (fuel : nat) (today : string) : M row :=
  lastEntry <- select_last_entry ;;
  match lastEntry with
  | Some e =>
      if String.ltb (date e) today
      then fill_gap_tz z fuel (date e) today else ret tt
  | None => ret tt
  end ;;
  status <- select_by_date today ;;
  match status with
  | Some r => ret r
  | None =>
      plannedDay <- getNextWorkoutDay ;;
      insert_planned today plannedDay ;;
      ret (mkRow today plannedDay 0 0)
  end.

Definition serve_tz (z : Zone) (fuel : nat) (req : request) (now : Z) : M unit :=
  match req with
  | GetStatus => api_status_tz z fuel (today_at now) ;; ret tt
  | PostComplete => api_complete (today_at now) ;; ret tt
  end.

(** The tables a server in zone [z] can come to hold: as [reachable], with
    the loop of each status request run to its end. *)
Inductive reachable_tz (z : Zone) : Z -> table -> Prop :=
| reach_tz_start (now : Z) :
    JSDate.in_range (now / 86400000) -> reachable_tz z now []
| reach_tz_serve (now now' : Z) (db db' : table) (req : request) (fuel : nat) :
    reachable_tz z now db ->
    now <= now' -> JSDate.in_range (now' / 86400000) ->
    serve_tz z fuel req now' db = Returns tt db' ->
    reachable_tz z now' db'.

(** A zone whose offset from UTC is [c] milliseconds at all times. *)
Definition fixed_offset (z : Zone) (c : Z) : Prop :=
  forall t, tza_utc z t = c /\ tza_local z t = c.

(** Central European time in 2024: one hour ahead of UTC, two hours from
    2024-03-31T01:00Z to 2024-10-27T01:00Z. *)
Definition cet_2024 : Zone :=
  let start := 19813 * msPerDay + 3600000 in
  let stop := 20023 * msPerDay + 3600000 in
  mkZone
    (fun t => if (start <=? t) && (t <? stop) then 7200000 else 3600000)
    (fun t => if (start + 7200000 <=? t) && (t <? stop + 7200000)
              then 7200000 else 3600000).

(** ** Predicates used to state the properties *)

(** The primary key: no two rows share a date. *)
Definition unique_dates (db : table) : Prop := NoDup (map date db).

(** Every planned day is one of the five days of the plan. *)
Definition planned_ok (db : table) : Prop :=
  Forall (fun r => 1 <= planned_day r <= 5) db.

(** [r] is the completed row with the greatest date. *)
Definition last_completed (db : table) (r : row) : Prop :=
  In r db /\ completed r = 1 /\
  forall r', In r' db -> completed r' = 1 -> String.ltb (date r) (date r') = false.

(** [r] is the row with the greatest date. *)
Definition last_entry (db : table) (r : row) : Prop :=
  In r db /\ forall r', In r' db -> String.ltb (date r) (date r') = false.

(** The day [getNextWorkoutDay] computes on [db]. *)
Definition next_day (db : table) : Z :=
  match latest (filter is_completed db) with
  | None => 1
  | Some r => Z.rem (planned_day r) 5 + 1
  end.

(** A row the gap-filling loop adds to [db] for one of the days [lo], ...,
    [hi - 1]: not completed, rescheduled, planned for the day the rotation
    gives on [db], at a date [db] has no row for. *)
Definition backfilled (db : table) (lo hi : Z) (r : row) : Prop :=
  completed r = 0 /\ rescheduled r = 1 /\ planned_day r = next_day db /\
  ~ In (date r) (map date db) /\
  exists c, lo <= c < hi /\ date r = JSDate.toISODate c.

(** The [n] days from [cur] on. *)
Fixpoint day_seq (cur : Z) (n : nat) : list Z :=
  match n with
  | O => []
  | S n' => cur :: day_seq (cur + 1) n'
  end.

(** The row the gap-filling loop inserts for day [c] when the rotation
    gives [p]. *)
Definition gap_row (p : Z) (c : Z) : row := mkRow (JSDate.toISODate c) p 0 1.

(** The count a grouped result gives for key [k], 0 when it has no row for
    it. *)
Definition count_of (k : option Z) (groups : list (option Z * Z)) : Z :=
  match find (fun g => key_eqb k (fst g)) groups with
  | Some g => snd g
  | None => 0
  end.

(** The sum of the counts of a grouped result. *)
Definition total_of (groups : list (option Z * Z)) : Z :=
  fold_right Z.add 0 (map snd groups).

(** The number of rows of [db] that satisfy [f]. *)
Definition count_rows (f : row -> bool) (db : table) : Z :=
  Z.of_nat (List.length (filter f db)).

(** A grouped result in strictly ascending order of key. *)
Definition keys_ascending (groups : list (option Z * Z)) : Prop :=
  StronglySorted (fun a b => key_ltb (fst a) (fst b) = true) groups.

(** The dates of [db], in the order of the table, are the days from [t0]
    on, one after the other. *)
Definition consecutive (t0 : Z) (db : table) : Prop :=
  map date db = map JSDate.toISODate (day_seq t0 (List.length db)).

(** The first [k] days of the rotation: 1, 2, 3, 4, 5, 1, 2, ... *)
Definition cycle (k : nat) : list Z :=
  map (fun i => Z.of_nat i mod 5 + 1) (seq 0 k).

(** The last row of the table is no backfilled row, and it is completed or
    planned for the day the rotation gives. *)
Definition last_row_ok (db : table) : Prop :=
  forall init r, db = init ++ [r] ->
    rescheduled r = 0 /\ (completed r = 1 \/ planned_day r = next_day db).

(** What holds of the table whenever the server is between two requests,
    [day] being the day its clock last showed. *)
Definition run_inv (day : Z) (db : table) : Prop :=
  JSDate.in_range day /\
  (exists t0, JSDate.in_range t0 /\
              t0 + Z.of_nat (List.length db) <= day + 1 /\
              consecutive t0 db) /\
  map planned_day (filter is_completed db)
  = cycle (List.length (filter is_completed db)) /\
  last_row_ok db /\
  (forall r, In r db -> rescheduled r = 1 -> completed r = 0).

(** Rows in strictly ascending order of date. *)
Definition ascending (db : table) : Prop :=
  StronglySorted (fun a b => String.ltb (date a) (date b) = true) db.

(** ** The order of TEXT values *)
Section StringOrder.

Lemma ascii_compare_refl (a : ascii) : Ascii.compare a a = Eq.
Proof. unfold Ascii.compare. apply N.compare_refl. Qed.

Lemma ascii_compare_lt_trans (a b c : ascii) :
  Ascii.compare a b = Lt -> Ascii.compare b c = Lt -> Ascii.compare a c = Lt.
Proof.
  unfold Ascii.compare. rewrite !N.compare_lt_iff. apply N.lt_trans.
Qed.

Lemma string_compare_refl (s : string) : String.compare s s = Eq.
Proof.
  induction s as [|a s IH]; simpl; [reflexivity|].
  now rewrite ascii_compare_refl.
Qed.

Lemma string_compare_lt_trans (s1 : string) :
  forall s2 s3,
    String.compare s1 s2 = Lt -> String.compare s2 s3 = Lt ->
    String.compare s1 s3 = Lt.
Proof.
  induction s1 as [|a s1 IH]; intros [|b s2] [|c s3]; simpl; try congruence.
  destruct (Ascii.compare a b) eqn:Hab; try discriminate;
    destruct (Ascii.compare b c) eqn:Hbc; try discriminate; intros H12 H23.
  - apply Ascii.compare_eq_iff in Hab, Hbc. subst.
    rewrite ascii_compare_refl. eauto.
  - apply Ascii.compare_eq_iff in Hab. subst. now rewrite Hbc.
  - apply Ascii.compare_eq_iff in Hbc. subst. now rewrite Hab.
  - now rewrite (ascii_compare_lt_trans a b c).
Qed.

Lemma ltb_irrefl (s : string) : String.ltb s s = false.
Proof. unfold String.ltb. now rewrite string_compare_refl. Qed.

Lemma ltb_trans (s1 s2 s3 : string) :
  String.ltb s1 s2 = true -> String.ltb s2 s3 = true -> String.ltb s1 s3 = true.
Proof.
  unfold String.ltb.
  destruct (String.compare s1 s2) eqn:H12; try discriminate.
  destruct (String.compare s2 s3) eqn:H23; try discriminate.
  now rewrite (string_compare_lt_trans s1 s2 s3).
Qed.

Lemma ltb_asym (s1 s2 : string) :
  String.ltb s1 s2 = true -> String.ltb s2 s1 = false.
Proof.
  unfold String.ltb. rewrite (String.compare_antisym s2 s1).
  destruct (String.compare s1 s2); simpl; congruence.
Qed.

(** Neither below the other: the same string. *)
Lemma ltb_antisym (s1 s2 : string) :
  String.ltb s1 s2 = false -> String.ltb s2 s1 = false -> s1 = s2.
Proof.
  unfold String.ltb. rewrite (String.compare_antisym s2 s1).
  destruct (String.compare s1 s2) eqn:H; simpl; try discriminate.
  intros _ _. now apply String.compare_eq_iff.
Qed.

Lemma ltb_neq (s1 s2 : string) : String.ltb s1 s2 = true -> s1 <> s2.
Proof. intros H ->. rewrite ltb_irrefl in H. discriminate. Qed.

(** [s1 < s2 <= s3] gives [s1 < s3]. *)
Lemma ltb_le_trans (s1 s2 s3 : string) :
  String.ltb s1 s2 = true -> String.ltb s3 s2 = false -> String.ltb s1 s3 = true.
Proof.
  intros H12 H32.
  destruct (String.ltb s2 s3) eqn:H23.
  - eapply ltb_trans; eassumption.
  - now rewrite <- (ltb_antisym _ _ H23 H32).
Qed.

(** [s1 <= s2 <= s3] gives [s1 <= s3]. *)
Lemma geb_trans (s1 s2 s3 : string) :
  String.ltb s2 s1 = false -> String.ltb s3 s2 = false -> String.ltb s3 s1 = false.
Proof.
  intros H21 H32.
  destruct (String.ltb s3 s1) eqn:H31; [|reflexivity].
  rewrite (ltb_le_trans s3 s1 s2 H31 H21) in H32. discriminate.
Qed.

End StringOrder.

(** ** The calendar *)
Module JSDateFacts.
Import JSDate.

Example toISODate_epoch : toISODate 0 = "1970-01-01"%string.
Proof. reflexivity. Qed.

Example toISODate_leap_day : toISODate 19782 = "2024-02-29"%string.
Proof. reflexivity. Qed.

Example toISODate_century : toISODate (-25508) = "1900-03-01"%string.
Proof. reflexivity. Qed.

Example toISODate_first : toISODate MIN_DAY = "0000-01-01"%string.
Proof. reflexivity. Qed.

Example toISODate_last : toISODate MAX_DAY = "9999-12-31"%string.
Proof. reflexivity. Qed.

Example toISODate_expanded : toISODate (MAX_DAY + 1) = "+010000-01-01"%string.
Proof. reflexivity. Qed.

Example parse_day : parse "2024-01-08" = Some 19730.
Proof. reflexivity. Qed.

Example parse_no_such_day : parse "2023-02-29" = None.
Proof. reflexivity. Qed.

Example parse_not_a_date : parse "yesterday" = None.
Proof. reflexivity. Qed.

Lemma quot4_succ (y : Z) :
  (y + 1 - 1969) / 4 = (y - 1969) / 4 + (if y mod 4 =? 0 then 1 else 0).
Proof. destruct (Z.eqb_spec (y mod 4) 0); Z.div_mod_to_equations; lia. Qed.

Lemma quot100_succ (y : Z) :
  (y + 1 - 1901) / 100 = (y - 1901) / 100 + (if y mod 100 =? 0 then 1 else 0).
Proof. destruct (Z.eqb_spec (y mod 100) 0); Z.div_mod_to_equations; lia. Qed.

Lemma quot400_succ (y : Z) :
  (y + 1 - 1601) / 400 = (y - 1601) / 400 + (if y mod 400 =? 0 then 1 else 0).
Proof. destruct (Z.eqb_spec (y mod 400) 0); Z.div_mod_to_equations; lia. Qed.

Lemma mod100_mod4 (y : Z) : y mod 100 = 0 -> y mod 4 = 0.
Proof. intros. Z.div_mod_to_equations. lia. Qed.

Lemma mod400_mod100 (y : Z) : y mod 400 = 0 -> y mod 100 = 0.
Proof. intros. Z.div_mod_to_equations. lia. Qed.

(** A year ends where the next one starts. *)
Lemma DayFromYear_succ (y : Z) :
  DayFromYear (y + 1) = DayFromYear y + DaysInYear y.
Proof.
  unfold DayFromYear, DaysInYear.
  rewrite quot4_succ, quot100_succ, quot400_succ.
  pose proof (mod100_mod4 y). pose proof (mod400_mod100 y).
  destruct (Z.eqb_spec (y mod 4) 0), (Z.eqb_spec (y mod 100) 0),
    (Z.eqb_spec (y mod 400) 0); cbn [negb]; lia.
Qed.

Lemma DayFromYear_mono (y y' : Z) : y <= y' -> DayFromYear y <= DayFromYear y'.
Proof. unfold DayFromYear. intros. Z.div_mod_to_equations. lia. Qed.

Lemma LeapDays_range (y : Z) : 0 <= LeapDays y <= 1.
Proof. unfold LeapDays. destruct (DaysInYear y =? 366); lia. Qed.

Lemma DaysInYear_leap (y : Z) : DaysInYear y = 365 + LeapDays y.
Proof.
  unfold LeapDays, DaysInYear.
  destruct (negb (y mod 4 =? 0)); [reflexivity|].
  destruct (negb (y mod 100 =? 0)); [reflexivity|].
  destruct (negb (y mod 400 =? 0)); reflexivity.
Qed.

(** [YearFromDay t] is the year whose days include [t]. *)
Lemma YearFromDay_spec (t : Z) :
  DayFromYear (YearFromDay t) <= t < DayFromYear (YearFromDay t + 1).
Proof.
  unfold YearFromDay. set (y := 1970 + 400 * t / 146097).
  destruct (Z.ltb_spec t (DayFromYear y)).
  - split.
    + unfold DayFromYear in *. subst y. Z.div_mod_to_equations. lia.
    + replace (y - 1 + 1) with y by ring. lia.
  - destruct (Z.leb_spec (DayFromYear (y + 1)) t); [|lia].
    split; [assumption|].
    unfold DayFromYear in *. subst y. Z.div_mod_to_equations. lia.
Qed.

Lemma YearFromDay_unique (t y : Z) :
  DayFromYear y <= t < DayFromYear (y + 1) -> YearFromDay t = y.
Proof.
  intros Hy. pose proof (YearFromDay_spec t) as Hs.
  destruct (Z.lt_trichotomy (YearFromDay t) y) as [Hlt|[Heq|Hgt]]; [|assumption|].
  - pose proof (DayFromYear_mono (YearFromDay t + 1) y). lia.
  - pose proof (DayFromYear_mono (y + 1) (YearFromDay t)). lia.
Qed.

Lemma DayWithinYear_range (t : Z) :
  0 <= DayWithinYear t < 365 + LeapDays (YearFromDay t).
Proof.
  unfold DayWithinYear. pose proof (YearFromDay_spec t) as Hs.
  rewrite DayFromYear_succ, DaysInYear_leap in Hs. lia.
Qed.

(** The years of the days in range have four digits. *)
Lemma YearFromDay_range (t : Z) : in_range t -> 0 <= YearFromDay t <= 9999.
Proof.
  unfold in_range, MIN_DAY, MAX_DAY. intros Ht.
  pose proof (YearFromDay_spec t) as Hs. split.
  - destruct (Z.le_gt_cases 0 (YearFromDay t)); [assumption|].
    pose proof (DayFromYear_mono (YearFromDay t + 1) 0).
    change (DayFromYear 0) with (-719528) in *. lia.
  - destruct (Z.le_gt_cases (YearFromDay t) 9999); [assumption|].
    pose proof (DayFromYear_mono 10000 (YearFromDay t)).
    change (DayFromYear 10000) with 2932897 in *. lia.
Qed.

Ltac month_cases :=
  unfold month_of, month_start;
  repeat match goal with
    | |- context [?a <? ?b] => destruct (Z.ltb_spec a b)
    | |- context [?a <=? ?b] => destruct (Z.leb_spec a b)
    | |- context [?a =? ?b] => destruct (Z.eqb_spec a b)
    end; lia.

Lemma month_of_range (d L : Z) : 0 <= month_of d L <= 11.
Proof. month_cases. Qed.

(** The table of month starts. *)
Lemma month_start_table (L : Z) :
  month_start 0 L = 0 /\ month_start 1 L = 31 /\ month_start 2 L = 59 + L /\
  month_start 3 L = 90 + L /\ month_start 4 L = 120 + L /\
  month_start 5 L = 151 + L /\ month_start 6 L = 181 + L /\
  month_start 7 L = 212 + L /\ month_start 8 L = 243 + L /\
  month_start 9 L = 273 + L /\ month_start 10 L = 304 + L /\
  month_start 11 L = 334 + L /\ month_start 12 L = 365 + L.
Proof. repeat split. Qed.

(** Day [d] of the year lies in the month [month_of] names. *)
Lemma month_of_spec (d L : Z) :
  0 <= L <= 1 -> 0 <= d < 365 + L ->
  month_start (month_of d L) L <= d < month_start (month_of d L + 1) L.
Proof.
  intros HL Hd.
  destruct (month_start_table L)
    as (H0 & H1 & H2 & H3 & H4 & H5 & H6 & H7 & H8 & H9 & H10 & H11 & H12).
  unfold month_of.
  repeat match goal with
    | |- context [?a <? ?b] => destruct (Z.ltb_spec a b)
    end;
  match goal with
  | |- month_start ?a L <= d < month_start (?a + 1) L =>
      let v := eval vm_compute in (a + 1) in change (a + 1) with v
  end; lia.
Qed.

Lemma month_start_mono (a b L : Z) :
  0 <= L <= 1 -> a <= b -> month_start a L <= month_start b L.
Proof. intros. month_cases. Qed.

Lemma month_start_bounds (mn L : Z) :
  0 <= L <= 1 -> 0 <= month_start mn L <= 365 + L.
Proof. intros. month_cases. Qed.

Lemma DaysInMonth_le_31 (y mn : Z) : DaysInMonth y mn <= 31.
Proof.
  unfold DaysInMonth. pose proof (LeapDays_range y).
  generalize dependent (LeapDays y). intros L HL. month_cases.
Qed.

(** The three fields of a day name a date of the calendar, and that date
    is the day. *)
Lemma civil_valid (t : Z) :
  0 <= MonthFromDay t <= 11 /\
  1 <= DateFromDay t <= DaysInMonth (YearFromDay t) (MonthFromDay t) /\
  MakeDay (YearFromDay t) (MonthFromDay t) (DateFromDay t) = t.
Proof.
  unfold DateFromDay, DaysInMonth, MakeDay, MonthFromDay.
  pose proof (LeapDays_range (YearFromDay t)) as HL.
  pose proof (DayWithinYear_range t) as Hd.
  pose proof (month_of_range (DayWithinYear t) (LeapDays (YearFromDay t))).
  pose proof (month_of_spec _ _ HL Hd).
  unfold DayWithinYear in *. lia.
Qed.

(** A date of year [y] is a day of year [y]. *)
Lemma MakeDay_in_year (y mn d : Z) :
  0 <= mn <= 11 -> 1 <= d <= DaysInMonth y mn ->
  DayFromYear y <= MakeDay y mn d < DayFromYear (y + 1).
Proof.
  unfold MakeDay, DaysInMonth. intros Hm Hd.
  rewrite DayFromYear_succ, DaysInYear_leap.
  pose proof (LeapDays_range y) as HL.
  pose proof (month_start_bounds mn _ HL).
  pose proof (month_start_bounds (mn + 1) _ HL). lia.
Qed.

Lemma MakeDay_lt_year (y mn d y' mn' d' : Z) :
  0 <= mn <= 11 -> 1 <= d <= DaysInMonth y mn ->
  0 <= mn' <= 11 -> 1 <= d' <= DaysInMonth y' mn' ->
  y < y' -> MakeDay y mn d < MakeDay y' mn' d'.
Proof.
  intros Hm Hd Hm' Hd' Hy.
  pose proof (MakeDay_in_year y mn d Hm Hd).
  pose proof (MakeDay_in_year y' mn' d' Hm' Hd').
  pose proof (DayFromYear_mono (y + 1) y'). lia.
Qed.

Lemma MakeDay_lt_month (y mn d mn' d' : Z) :
  1 <= d <= DaysInMonth y mn -> 1 <= d' ->
  mn < mn' -> MakeDay y mn d < MakeDay y mn' d'.
Proof.
  unfold MakeDay, DaysInMonth. intros Hd Hd' Hm.
  pose proof (month_start_mono (mn + 1) mn' _ (LeapDays_range y)). lia.
Qed.

(** The order of dates, field by field, is the order of days. *)
Lemma civil_compare_MakeDay (y m d y' m' d' : Z) :
  1 <= m <= 12 -> 1 <= d <= DaysInMonth y (m - 1) ->
  1 <= m' <= 12 -> 1 <= d' <= DaysInMonth y' (m' - 1) ->
  civil_compare y m d y' m' d' = (MakeDay y (m - 1) d ?= MakeDay y' (m' - 1) d').
Proof.
  intros Hm Hd Hm' Hd'. unfold civil_compare. symmetry.
  destruct (Z.compare_spec y y') as [<-|Hy|Hy].
  - destruct (Z.compare_spec m m') as [<-|Hmm|Hmm].
    + unfold MakeDay. destruct (Z.compare_spec d d');
        [apply Z.compare_eq_iff|apply Z.compare_lt_iff|apply Z.compare_gt_iff]; lia.
    + apply Z.compare_lt_iff. apply MakeDay_lt_month; lia.
    + apply Z.compare_gt_iff. apply MakeDay_lt_month; lia.
  - apply Z.compare_lt_iff. apply MakeDay_lt_year; trivial; lia.
  - apply Z.compare_gt_iff. apply MakeDay_lt_year; trivial; lia.
Qed.

(** *** Digits *)

Lemma digit_val_digit (x : Z) : 0 <= x <= 9 -> digit_val (digit x) = Some x.
Proof.
  intros Hx. unfold digit_val, digit.
  rewrite N_ascii_embedding by lia. rewrite Z2N.id by lia.
  destruct (Z.leb_spec 48 (48 + x)); [|lia].
  destruct (Z.leb_spec (48 + x) 57); [|lia].
  cbn [andb]. f_equal. lia.
Qed.

Lemma num2_digits (n : Z) :
  0 <= n <= 99 -> num2 (digit (n / 10)) (digit (n mod 10)) = Some n.
Proof.
  intros Hn. unfold num2.
  rewrite !digit_val_digit by (Z.div_mod_to_equations; lia).
  f_equal. Z.div_mod_to_equations. lia.
Qed.

Lemma ascii_compare_digit (x y : Z) :
  0 <= x <= 9 -> 0 <= y <= 9 -> Ascii.compare (digit x) (digit y) = (x ?= y).
Proof.
  intros Hx Hy. unfold Ascii.compare, digit.
  rewrite !N_ascii_embedding by lia.
  rewrite Z2N.inj_compare by lia. apply Z.add_compare_mono_l.
Qed.

Lemma compare_pad2 (n n' : Z) (k k' : string) :
  0 <= n <= 99 -> 0 <= n' <= 99 ->
  String.compare (pad2 n k) (pad2 n' k')
  = match n ?= n' with Eq => String.compare k k' | c => c end.
Proof.
  intros Hn Hn'. unfold pad2. cbn [String.compare].
  rewrite !ascii_compare_digit by (Z.div_mod_to_equations; lia).
  destruct (Z.compare_spec (n / 10) (n' / 10)),
    (Z.compare_spec (n mod 10) (n' mod 10)),
    (Z.compare_spec n n');
    try reflexivity; exfalso; Z.div_mod_to_equations; lia.
Qed.

Lemma compare_pad4 (n n' : Z) (k k' : string) :
  0 <= n <= 9999 -> 0 <= n' <= 9999 ->
  String.compare (pad4 n k) (pad4 n' k')
  = match n ?= n' with Eq => String.compare k k' | c => c end.
Proof.
  intros Hn Hn'. unfold pad4.
  rewrite !compare_pad2 by (Z.div_mod_to_equations; lia).
  destruct (Z.compare_spec (n / 100) (n' / 100)),
    (Z.compare_spec (n mod 100) (n' mod 100)),
    (Z.compare_spec n n');
    try reflexivity; exfalso; Z.div_mod_to_equations; lia.
Qed.

Lemma fmt_year_four (y : Z) (k : string) :
  0 <= y <= 9999 -> fmt_year y k = pad4 y k.
Proof.
  intros Hy. unfold fmt_year.
  destruct (Z.leb_spec 0 y); [|lia]. destruct (Z.leb_spec y 9999); [|lia].
  reflexivity.
Qed.

(** The byte order of two renderings is the order of the dates. *)
Lemma compare_fmt_date (y m d y' m' d' : Z) :
  0 <= y <= 9999 -> 0 <= m <= 99 -> 0 <= d <= 99 ->
  0 <= y' <= 9999 -> 0 <= m' <= 99 -> 0 <= d' <= 99 ->
  String.compare (fmt_date y m d) (fmt_date y' m' d') = civil_compare y m d y' m' d'.
Proof.
  intros Hy Hm Hd Hy' Hm' Hd'. unfold fmt_date, civil_compare.
  rewrite !fmt_year_four by assumption.
  rewrite compare_pad4 by assumption.
  destruct (y ?= y'); try reflexivity.
  cbn [String.compare]. rewrite ascii_compare_refl.
  rewrite compare_pad2 by assumption.
  destruct (m ?= m'); try reflexivity.
  cbn [String.compare]. rewrite ascii_compare_refl.
  rewrite compare_pad2 by assumption.
  now destruct (d ?= d').
Qed.

(** A rendering parses back to the date it renders. *)
Lemma parse_fmt_date (y m d : Z) :
  0 <= y <= 9999 -> 1 <= m <= 12 -> 1 <= d <= DaysInMonth y (m - 1) ->
  parse (fmt_date y m d) = Some (MakeDay y (m - 1) d).
Proof.
  intros Hy Hm Hd. pose proof (DaysInMonth_le_31 y (m - 1)) as H31.
  unfold fmt_date. rewrite fmt_year_four by assumption.
  unfold pad4, pad2. cbv beta iota delta [parse].
  rewrite !num2_digits by (Z.div_mod_to_equations; lia).
  replace (100 * (y / 100) + y mod 100) with y
    by (Z.div_mod_to_equations; lia).
  cbv zeta.
  destruct (Z.leb_spec 1 m); [|lia]. destruct (Z.leb_spec m 12); [|lia].
  destruct (Z.leb_spec 1 d); [|lia].
  destruct (Z.leb_spec d (DaysInMonth y (m - 1))); [|lia].
  reflexivity.
Qed.

(** *** Days in range and their renderings *)

Lemma toISODate_fields (t : Z) :
  in_range t ->
  0 <= YearFromDay t <= 9999 /\
  1 <= MonthFromDay t + 1 <= 12 /\
  1 <= DateFromDay t <= DaysInMonth (YearFromDay t) (MonthFromDay t + 1 - 1) /\
  MakeDay (YearFromDay t) (MonthFromDay t + 1 - 1) (DateFromDay t) = t.
Proof.
  intros Ht. replace (MonthFromDay t + 1 - 1) with (MonthFromDay t) by ring.
  pose proof (civil_valid t). pose proof (YearFromDay_range t Ht). lia.
Qed.

(** [new Date(d.toISOString().split('T')[0])] is [d] again. *)
Lemma parse_toISODate (t : Z) : in_range t -> parse (toISODate t) = Some t.
Proof.
  intros Ht. destruct (toISODate_fields t Ht) as (Hy & Hm & Hd & Hday).
  unfold toISODate. rewrite parse_fmt_date by assumption. now rewrite Hday.
Qed.

(** The byte order of the renderings of two days is the order of the days. *)
Lemma compare_toISODate (a b : Z) :
  in_range a -> in_range b ->
  String.compare (toISODate a) (toISODate b) = (a ?= b).
Proof.
  intros Ha Hb.
  destruct (toISODate_fields a Ha) as (Hy & Hm & Hd & Hday).
  destruct (toISODate_fields b Hb) as (Hy' & Hm' & Hd' & Hday').
  pose proof (DaysInMonth_le_31 (YearFromDay a) (MonthFromDay a + 1 - 1)).
  pose proof (DaysInMonth_le_31 (YearFromDay b) (MonthFromDay b + 1 - 1)).
  unfold toISODate. rewrite compare_fmt_date by lia.
  rewrite civil_compare_MakeDay by assumption.
  now rewrite Hday, Hday'.
Qed.

Lemma ltb_toISODate (a b : Z) :
  in_range a -> in_range b -> a < b ->
  String.ltb (toISODate a) (toISODate b) = true.
Proof.
  intros Ha Hb Hlt. unfold String.ltb.
  rewrite compare_toISODate by assumption.
  apply Z.compare_lt_iff in Hlt. now rewrite Hlt.
Qed.

End JSDateFacts.

(** ** The statements on the table *)
Section Statements.

Lemma latest_None (rows : list row) : latest rows = None <-> rows = [].
Proof.
  destruct rows as [|r rest]; simpl; [tauto|].
  split; [|discriminate].
  destruct (latest rest) as [m|]; [destruct (String.ltb (date r) (date m))|];
    discriminate.
Qed.

(** [latest] yields a row of the list whose date no other date exceeds. *)
Lemma latest_spec (rows : list row) :
  forall m, latest rows = Some m ->
    In m rows /\ forall r, In r rows -> String.ltb (date m) (date r) = false.
Proof.
  induction rows as [|r rest IH]; simpl; [discriminate|].
  intros m. destruct (latest rest) as [m'|] eqn:Hrest.
  - destruct (IH m' eq_refl) as [Hin Hmax].
    destruct (String.ltb (date r) (date m')) eqn:Hlt; intros [= <-].
    + split; [now right|]. intros x [<-|Hx]; [now apply ltb_asym|auto].
    + split; [now left|]. intros x [<-|Hx]; [apply ltb_irrefl|].
      eapply geb_trans; [apply Hmax, Hx|exact Hlt].
  - intros [= <-]. apply latest_None in Hrest. subst rest.
    split; [now left|]. intros x [<-|[]]. apply ltb_irrefl.
Qed.

Lemma same_date_same_row (db : table) :
  unique_dates db ->
  forall a b, In a db -> In b db -> date a = date b -> a = b.
Proof.
  unfold unique_dates.
  induction db as [|r rest IH]; simpl; intros Hnd a b; [tauto|].
  inversion Hnd as [|? ? Hnotin Hnd']; subst.
  intros [<-|Ha] [<-|Hb] Heq; auto.
  - exfalso. apply Hnotin. rewrite Heq. now apply in_map.
  - exfalso. apply Hnotin. rewrite <- Heq. now apply in_map.
Qed.

Lemma unique_dates_filter (f : row -> bool) (db : table) :
  unique_dates db -> unique_dates (filter f db).
Proof.
  unfold unique_dates. induction db as [|r rest IH]; simpl; intros Hnd; [constructor|].
  inversion Hnd as [|? ? Hnotin Hnd']; subst.
  destruct (f r); simpl; auto.
  constructor; auto.
  intros Hin. apply Hnotin. apply in_map_iff in Hin as (x & Hx & Hin).
  apply filter_In in Hin as [Hin _]. rewrite <- Hx. now apply in_map.
Qed.

(** With unique dates, the greatest row is the one [latest] finds. *)
Lemma latest_unique (rows : list row) (m : row) :
  unique_dates rows ->
  In m rows ->
  (forall r, In r rows -> String.ltb (date m) (date r) = false) ->
  latest rows = Some m.
Proof.
  intros Hnd Hin Hmax.
  destruct (latest rows) as [m'|] eqn:Hl.
  - destruct (latest_spec rows m' Hl) as [Hin' Hmax'].
    f_equal. apply (same_date_same_row rows Hnd); auto.
    apply ltb_antisym; auto.
  - apply latest_None in Hl. subst. destruct Hin.
Qed.

Lemma find_has_date_Some (d : string) (db : table) (r : row) :
  find (has_date d) db = Some r -> In r db /\ date r = d.
Proof.
  intros H. apply find_some in H as [Hin Hd].
  split; [assumption|]. now apply String.eqb_eq.
Qed.

Lemma find_has_date_None (d : string) (db : table) :
  find (has_date d) db = None <-> ~ In d (map date db).
Proof.
  induction db as [|r rest IH]; simpl; [tauto|].
  unfold has_date at 1. destruct (String.eqb_spec (date r) d) as [->|Hne].
  - split; [discriminate|]. intros H. exfalso. apply H. now left.
  - rewrite IH. tauto.
Qed.

Lemma existsb_has_date (d : string) (db : table) :
  existsb (has_date d) db = true <-> In d (map date db).
Proof.
  rewrite existsb_exists, in_map_iff. unfold has_date.
  split; intros (r & H1 & H2); exists r.
  - apply String.eqb_eq in H2. auto.
  - split; [assumption|]. now apply String.eqb_eq.
Qed.

(** An insert of a fresh date appends the row. *)
Lemma insert_row_fresh (r : row) (db : table) :
  ~ In (date r) (map date db) -> insert_row r db = Returns tt (db ++ [r]).
Proof.
  intros H. unfold insert_row.
  destruct (existsb (has_date (date r)) db) eqn:E; [|reflexivity].
  apply existsb_has_date in E. contradiction.
Qed.

End Statements.

(** ** [getNextWorkoutDay] *)
Section Rotation.

(** It only reads the table. *)
Lemma getNextWorkoutDay_run (db : table) :
  getNextWorkoutDay db = Returns (next_day db) db.
Proof.
  unfold getNextWorkoutDay, next_day, bind, select_last_completed, ret.
  now destruct (latest (filter is_completed db)).
Qed.

Lemma is_completed_true (r : row) : is_completed r = true <-> completed r = 1.
Proof. unfold is_completed. apply Z.eqb_eq. Qed.

Lemma next_day_none (db : table) :
  (forall r, In r db -> completed r <> 1) -> next_day db = 1.
Proof.
  intros H. unfold next_day.
  destruct (latest (filter is_completed db)) as [m|] eqn:Hl; [|reflexivity].
  apply latest_spec in Hl as [Hin _].
  apply filter_In in Hin as [Hin Hc]. apply is_completed_true in Hc.
  now destruct (H m Hin).
Qed.

Lemma next_day_last (db : table) (r : row) :
  unique_dates db -> last_completed db r ->
  next_day db = Z.rem (planned_day r) 5 + 1.
Proof.
  intros Hnd (Hin & Hc & Hmax). unfold next_day.
  rewrite (latest_unique (filter is_completed db) r); trivial.
  - now apply unique_dates_filter.
  - apply filter_In. split; [assumption|]. now apply is_completed_true.
  - intros r' Hr'. apply filter_In in Hr' as [Hr' Hc'].
    apply is_completed_true in Hc'. auto.
Qed.

(** A completed row is the last completed one when [latest] picks it. *)
Lemma latest_completed_is_last (db : table) (r : row) :
  latest (filter is_completed db) = Some r -> last_completed db r.
Proof.
  intros Hl. apply latest_spec in Hl as [Hin Hmax].
  apply filter_In in Hin as [Hin Hc]. apply is_completed_true in Hc.
  repeat split; trivial.
  intros r' Hr' Hc'. apply Hmax, filter_In. split; [assumption|].
  now apply is_completed_true.
Qed.

Lemma next_day_range (db : table) :
  planned_ok db -> 1 <= next_day db <= 5.
Proof.
  intros Hok. unfold next_day.
  destruct (latest (filter is_completed db)) as [m|] eqn:Hl; [|lia].
  apply latest_spec in Hl as [Hin _]. apply filter_In in Hin as [Hin _].
  unfold planned_ok in Hok. rewrite Forall_forall in Hok.
  specialize (Hok m Hin).
  rewrite Z.rem_mod_nonneg by lia.
  pose proof (Z.mod_pos_bound (planned_day m) 5). lia.
Qed.

End Rotation.

(** ** The gap-filling loop *)
Section Backfill.

Lemma next_day_app (db added : table) :
  Forall (fun r => completed r <> 1) added -> next_day (db ++ added) = next_day db.
Proof.
  intros H. unfold next_day. rewrite filter_app.
  replace (filter is_completed added) with (@nil row); [now rewrite app_nil_r|].
  induction H as [|r l Hr _ IH]; simpl; [reflexivity|].
  destruct (is_completed r) eqn:E; [|assumption].
  apply is_completed_true in E. contradiction.
Qed.

Lemma backfill_done (fuel : nat) (cur t : Z) (db : table) :
  t <= cur -> backfill fuel cur t db = Returns tt db.
Proof.
  intros H. destruct fuel; simpl;
    (destruct (Z.ltb_spec cur t); [lia|reflexivity]).
Qed.

(** One turn of the loop. *)
Lemma backfill_step (fuel : nat) (cur t : Z) (db : table) :
  cur < t ->
  backfill (S fuel) cur t db =
  match find (has_date (JSDate.toISODate cur)) db with
  | Some _ => backfill fuel (cur + 1) t db
  | None =>
      backfill fuel (cur + 1) t
        (db ++ [mkRow (JSDate.toISODate cur) (next_day db) 0 1])
  end.
Proof.
  intros H. simpl. destruct (Z.ltb_spec cur t); [|lia].
  unfold bind at 1 2. unfold select_by_date.
  destruct (find (has_date (JSDate.toISODate cur)) db) eqn:Hf; [reflexivity|].
  unfold bind. rewrite getNextWorkoutDay_run.
  unfold insert_rescheduled. rewrite insert_row_fresh; [reflexivity|].
  now apply find_has_date_None.
Qed.

(** With fuel for every day from [cur] to [t], the loop returns, and what it
    does is append backfilled rows, no two for one date. *)
Lemma backfill_appends (fuel : nat) :
  forall cur t db,
    (Z.to_nat (t - cur) <= fuel)%nat ->
    exists added,
      backfill fuel cur t db = Returns tt (db ++ added) /\
      Forall (backfilled db cur t) added /\
      NoDup (map date added).
Proof.
  induction fuel as [|fuel IH]; intros cur t db Hfuel.
  - exists []. rewrite app_nil_r, backfill_done by lia.
    repeat split; constructor.
  - destruct (Z.le_gt_cases t cur) as [Hle|Hlt].
    + exists []. rewrite app_nil_r, backfill_done by lia.
      repeat split; constructor.
    + rewrite backfill_step by lia.
      destruct (find (has_date (JSDate.toISODate cur)) db) as [existing|] eqn:Hf.
      * destruct (IH (cur + 1) t db ltac:(lia)) as (added & Hrun & Hall & Hnd).
        exists added. repeat split; trivial.
        eapply Forall_impl; [|exact Hall].
        intros r (?&?&?&?& c & ? & ?). repeat split; trivial.
        exists c. split; [lia|assumption].
      * apply find_has_date_None in Hf.
        set (r0 := mkRow (JSDate.toISODate cur) (next_day db) 0 1) in *.
        destruct (IH (cur + 1) t (db ++ [r0]) ltac:(lia))
          as (added & Hrun & Hall & Hnd).
        assert (Hnext : next_day (db ++ [r0]) = next_day db).
        { apply next_day_app. repeat constructor. simpl. discriminate. }
        exists (r0 :: added). rewrite Hrun, <- app_assoc. simpl.
        split; [reflexivity|]. split.
        -- constructor.
           ++ repeat split; trivial. exists cur. split; [lia|reflexivity].
           ++ eapply Forall_impl; [|exact Hall].
              intros r (?&?& Hp & Hfresh & c & ? & ?). repeat split; trivial.
              ** now rewrite Hp.
              ** intros Hin. apply Hfresh. rewrite map_app, in_app_iff. now left.
              ** exists c. split; [lia|assumption].
        -- constructor; [|assumption].
           intros Hin. apply in_map_iff in Hin as (r & Hd & Hin).
           rewrite Forall_forall in Hall.
           destruct (Hall r Hin) as (_&_&_& Hfresh &_).
           apply Hfresh. rewrite map_app, in_app_iff. right. simpl. now left.
Qed.

(** More fuel than the loop needs changes nothing. *)
Lemma backfill_fuel (fuel : nat) :
  forall fuel' cur t db,
    (Z.to_nat (t - cur) <= fuel)%nat -> (fuel <= fuel')%nat ->
    backfill fuel' cur t db = backfill fuel cur t db.
Proof.
  induction fuel as [|fuel IH]; intros fuel' cur t db Hfuel Hle.
  - now rewrite !backfill_done by lia.
  - destruct (Z.le_gt_cases t cur) as [Hdone|Hlt].
    + now rewrite !backfill_done by lia.
    + destruct fuel' as [|fuel']; [lia|].
      rewrite !backfill_step by lia.
      destruct (find (has_date (JSDate.toISODate cur)) db);
        apply IH; lia.
Qed.

(** The guarded body of the handler's [if] returns as well. *)
Lemma fill_gap_appends (lastDate today : string) (db : table) :
  exists added,
    fill_gap lastDate today db = Returns tt (db ++ added) /\
    Forall (fun r => completed r = 0 /\ rescheduled r = 1 /\
                     planned_day r = next_day db /\
                     ~ In (date r) (map date db)) added /\
    NoDup (map date added).
Proof.
  unfold fill_gap.
  destruct (JSDate.parse lastDate) as [d|];
    [destruct (JSDate.parse today) as [t|]|].
  - destruct (backfill_appends (Z.to_nat (t - (d + 1))) (d + 1) t db (le_n _))
      as (added & Hrun & Hall & Hnd).
    exists added. repeat split; trivial.
    eapply Forall_impl; [|exact Hall].
    intros r (?&?&?&?&_). auto.
  - exists []. rewrite app_nil_r. repeat split; constructor.
  - exists []. rewrite app_nil_r. repeat split; constructor.
Qed.

End Backfill.

(** ** [GET /api/status] *)
Section Status.

Lemma find_app {A : Type} (f : A -> bool) (l1 l2 : list A) :
  find f (l1 ++ l2) =
  match find f l1 with Some x => Some x | None => find f l2 end.
Proof.
  induction l1 as [|a l1 IH]; simpl; [reflexivity|].
  now destruct (f a).
Qed.

(** The handler returns, with today's row and with the table it was given
    followed by the rows it added: each of them not completed, planned for
    the day the rotation gives on [db], at a date [db] has no row for. *)
Lemma api_status_run (today : string) (db : table) :
  exists added r,
    api_status today db = Returns r (db ++ added) /\
    find (has_date today) (db ++ added) = Some r /\
    Forall (fun x => completed x = 0 /\ planned_day x = next_day db /\
                     ~ In (date x) (map date db)) added /\
    NoDup (map date added).
Proof.
  assert (Hgap : exists added,
    (match latest db with
     | Some e =>
         if String.ltb (date e) today then fill_gap (date e) today else ret tt
     | None => ret tt
     end) db = Returns tt (db ++ added) /\
    Forall (fun x => completed x = 0 /\ planned_day x = next_day db /\
                     ~ In (date x) (map date db)) added /\
    NoDup (map date added)).
  { destruct (latest db) as [e|];
      [destruct (String.ltb (date e) today)|];
      try (exists []; rewrite app_nil_r; repeat split; constructor).
    destruct (fill_gap_appends (date e) today db) as (added & Hrun & Hall & Hnd).
    exists added. repeat split; trivial.
    eapply Forall_impl; [|exact Hall]. intros x (?&?&?&?). auto. }
  destruct Hgap as (added & Hrun & Hall & Hnd).
  unfold api_status. unfold bind at 1. unfold select_last_entry.
  unfold bind at 1. rewrite Hrun.
  unfold bind at 1. unfold select_by_date.
  destruct (find (has_date today) (db ++ added)) as [r|] eqn:Hf.
  - exists added, r. repeat split; trivial.
  - assert (Hnext : next_day (db ++ added) = next_day db).
    { apply next_day_app. eapply Forall_impl; [|exact Hall].
      intros x (Hc & _). rewrite Hc. discriminate. }
    apply find_has_date_None in Hf.
    unfold bind. rewrite getNextWorkoutDay_run, Hnext.
    unfold insert_planned. rewrite insert_row_fresh by exact Hf.
    set (t := mkRow today (next_day db) 0 0).
    exists (added ++ [t]), t. rewrite app_assoc.
    split; [reflexivity|]. split; [|split].
    + rewrite find_app.
      destruct (find (has_date today) (db ++ added)) eqn:Hf'.
      * apply find_has_date_Some in Hf' as [Hin Hd].
        exfalso. apply Hf. rewrite <- Hd. now apply in_map.
      * simpl. unfold has_date. simpl. now rewrite String.eqb_refl.
    + apply Forall_app. split; [assumption|].
      repeat constructor. simpl.
      intros Hin. apply Hf. rewrite map_app, in_app_iff. now left.
    + rewrite map_app. simpl.
      apply NoDup_app; [assumption|repeat constructor; intros []|].
      intros d Hin [<-|[]]. apply Hf. rewrite map_app, in_app_iff. now right.
Qed.

(** Once today's row is there, the handler returns it and writes nothing. *)
Lemma api_status_existing (today : string) (db : table) (r : row) :
  find (has_date today) db = Some r -> api_status today db = Returns r db.
Proof.
  intros Hf. unfold api_status. unfold bind at 1. unfold select_last_entry.
  unfold bind at 1.
  destruct (latest db) as [e|] eqn:Hl.
  - apply latest_spec in Hl as [_ Hmax].
    destruct (find_has_date_Some _ _ _ Hf) as [Hin Hd].
    specialize (Hmax r Hin). rewrite Hd in Hmax. rewrite Hmax.
    unfold ret at 1. unfold bind, select_by_date. now rewrite Hf.
  - unfold ret at 1. unfold bind, select_by_date. now rewrite Hf.
Qed.

End Status.

(** ** A gap of whole days after the last entry *)
Section Gap.

Import JSDate JSDateFacts.

(** No row is dated after the last entry. *)
Lemma fresh_after_last (db : table) (e : row) (d c : Z) :
  last_entry db e -> date e = toISODate d ->
  in_range d -> in_range c -> d < c ->
  find (has_date (toISODate c)) db = None.
Proof.
  intros [_ Hmax] He Hd Hc Hlt. apply find_has_date_None.
  intros Hin. apply in_map_iff in Hin as (r & Hr & Hin).
  specialize (Hmax r Hin). rewrite He, Hr in Hmax.
  rewrite ltb_toISODate in Hmax by assumption. discriminate.
Qed.

Lemma find_gap_rows (p : Z) (c : Z) (cur : Z) (n : nat) :
  in_range c -> in_range cur -> in_range (cur + Z.of_nat n) ->
  c < cur \/ cur + Z.of_nat n <= c ->
  find (has_date (toISODate c)) (map (gap_row p) (day_seq cur n)) = None.
Proof.
  revert cur. induction n as [|n IH]; intros cur Hc Hcur Hend Hout;
    [reflexivity|].
  cbn [day_seq map find]. unfold has_date at 1. cbn [gap_row date].
  unfold in_range in *.
  destruct (String.eqb_spec (toISODate cur) (toISODate c)) as [Heq|_].
  - exfalso.
    pose proof (compare_toISODate cur c ltac:(unfold in_range; lia) Hc) as Hcmp.
    rewrite Heq, string_compare_refl in Hcmp.
    symmetry in Hcmp. apply Z.compare_eq_iff in Hcmp. lia.
  - apply IH; unfold in_range; lia.
Qed.

(** Over days in range that the table has no row for, the loop appends one
    rescheduled row per day, all planned for the same day of the plan. *)
Lemma backfill_fresh (n : nat) :
  forall cur db,
    in_range cur -> in_range (cur + Z.of_nat n) ->
    (forall c, cur <= c < cur + Z.of_nat n ->
       find (has_date (toISODate c)) db = None) ->
    backfill n cur (cur + Z.of_nat n) db
    = Returns tt (db ++ map (gap_row (next_day db)) (day_seq cur n)).
Proof.
  induction n as [|n IH]; intros cur db Hcur Hend Hfresh.
  - rewrite backfill_done by lia. cbn. now rewrite app_nil_r.
  - rewrite backfill_step by lia.
    rewrite Hfresh by lia.
    fold (gap_row (next_day db) cur).
    replace (cur + Z.of_nat (S n)) with (cur + 1 + Z.of_nat n) in * by lia.
    unfold in_range in *.
    rewrite IH.
    + rewrite next_day_app by (repeat constructor; cbn; discriminate).
      cbn [day_seq map]. now rewrite <- app_assoc.
    + unfold in_range. lia.
    + unfold in_range. lia.
    + intros c Hc. rewrite find_app, Hfresh by lia.
      apply (find_gap_rows (next_day db) c cur 1); unfold in_range; lia.
Qed.

(** With the last entry [k + 1] days before today, the handler appends a
    rescheduled row for each of the [k] days between and then today's row,
    all planned for the day the rotation gives on the table it was given. *)
Lemma api_status_gap (today : string) (db : table) (e : row) (d : Z) (k : nat) :
  last_entry db e ->
  in_range d -> in_range (d + 1 + Z.of_nat k) ->
  date e = toISODate d ->
  today = toISODate (d + 1 + Z.of_nat k) ->
  api_status today db
  = Returns (mkRow today (next_day db) 0 0)
      (db ++ map (gap_row (next_day db)) (day_seq (d + 1) k)
          ++ [mkRow today (next_day db) 0 0]).
Proof.
  intros Hlast Hd Ht He Htoday. pose proof Hlast as [Hin Hmax].
  unfold in_range in *.
  unfold api_status. unfold bind at 1. unfold select_last_entry.
  unfold bind at 1.
  destruct (latest db) as [e'|] eqn:Hl;
    [|apply latest_None in Hl; subst db; destruct Hin].
  apply latest_spec in Hl as [Hin' Hmax'].
  assert (He' : date e' = date e)
    by (apply ltb_antisym; [apply Hmax', Hin|apply Hmax, Hin']).
  rewrite He', He, Htoday.
  rewrite ltb_toISODate by (unfold in_range; lia).
  unfold fill_gap. rewrite !parse_toISODate by (unfold in_range; lia).
  replace (Z.to_nat (d + 1 + Z.of_nat k - (d + 1))) with k by lia.
  rewrite backfill_fresh; try (unfold in_range; lia).
  2:{ intros c Hc. apply (fresh_after_last db e d c); trivial;
        unfold in_range; lia. }
  unfold bind at 1. unfold select_by_date.
  set (t := d + 1 + Z.of_nat k) in *.
  set (rows := map (gap_row (next_day db)) (day_seq (d + 1) k)).
  assert (Hf : find (has_date (toISODate t)) (db ++ rows) = None).
  { rewrite find_app.
    rewrite (fresh_after_last db e d t) by (trivial; unfold in_range; lia).
    apply find_gap_rows; unfold in_range; lia. }
  rewrite Hf. unfold bind. rewrite getNextWorkoutDay_run.
  assert (Hnext : next_day (db ++ rows) = next_day db).
  { apply next_day_app. subst rows. apply Forall_forall.
    intros r Hr. apply in_map_iff in Hr as (c & <- & _). cbn. discriminate. }
  rewrite Hnext. unfold insert_planned.
  rewrite insert_row_fresh by (now apply find_has_date_None).
  now rewrite <- app_assoc.
Qed.

End Gap.

(** ** [POST /api/complete] *)
Section Complete.

Lemma api_complete_run (today : string) (db : table) :
  api_complete today db
  = Returns true (map (fun r => if has_date today r then set_completed r else r) db).
Proof. reflexivity. Qed.

Lemma update_dates (today : string) (db : table) :
  map date (map (fun r => if has_date today r then set_completed r else r) db)
  = map date db.
Proof.
  rewrite map_map. apply map_ext. intros r. now destruct (has_date today r).
Qed.

Lemma update_absent (today : string) (db : table) :
  ~ In today (map date db) ->
  map (fun r => if has_date today r then set_completed r else r) db = db.
Proof.
  intros H. rewrite <- (map_id db) at 2. apply map_ext_in.
  intros r Hin. unfold has_date.
  destruct (String.eqb_spec (date r) today) as [Hd|]; [|reflexivity].
  exfalso. apply H. rewrite <- Hd. now apply in_map.
Qed.

End Complete.

(** ** Properties of the rotation engine *)

(** A gap that already holds a row: the loop starts after the row of
    greatest date, so only the day after it is filled. *)
Example api_status_partial_gap :
  api_status "2024-01-12"
    [mkRow "2024-01-08" 2 1 0; mkRow "2024-01-10" 3 0 0]
  = Returns (mkRow "2024-01-12" 3 0 0)
      [mkRow "2024-01-08" 2 1 0; mkRow "2024-01-10" 3 0 0;
       mkRow "2024-01-11" 3 0 1; mkRow "2024-01-12" 3 0 0].
Proof. vm_compute. reflexivity. Qed.

(** Completing today's workout moves the rotation on the next day. *)
Example rotation_advances :
  (api_status "2024-01-11" ;; api_complete "2024-01-11" ;; api_status "2024-01-12")
    [mkRow "2024-01-10" 5 1 0]
  = Returns (mkRow "2024-01-12" 2 0 0)
      [mkRow "2024-01-10" 5 1 0; mkRow "2024-01-11" 1 1 0;
       mkRow "2024-01-12" 2 0 0].
Proof. vm_compute. reflexivity. Qed.

(** C1. [getNextWorkoutDay] returns 1, and leaves the table as it is, when no
    row has [completed = 1]; otherwise, with [r] the completed row of greatest
    date, it returns the remainder of [planned_day r] by 5, plus 1, which is
    [(planned_day r mod 5) + 1] for the planned days a table holds (they are
    not negative). *)
Theorem getNextWorkoutDay_spec (db : table) :
  ((forall r, In r db -> completed r <> 1) ->
   getNextWorkoutDay db = Returns 1 db) /\
  (forall r, unique_dates db -> last_completed db r ->
     getNextWorkoutDay db = Returns (Z.rem (planned_day r) 5 + 1) db /\
     (0 <= planned_day r ->
      getNextWorkoutDay db = Returns (planned_day r mod 5 + 1) db)).
Proof.
  rewrite getNextWorkoutDay_run. split.
  - intros H. now rewrite next_day_none.
  - intros r Hnd Hlast. rewrite (next_day_last db r Hnd Hlast).
    split; [reflexivity|]. intros Hpos. now rewrite Z.rem_mod_nonneg by lia.
Qed.

Lemma getNextWorkoutDay_spec_witness :
  getNextWorkoutDay [] = Returns 1 [] /\
  getNextWorkoutDay [mkRow "2024-01-08" 2 1 0; mkRow "2024-01-09" 3 0 1]
  = Returns (2 mod 5 + 1) [mkRow "2024-01-08" 2 1 0; mkRow "2024-01-09" 3 0 1].
Proof.
  split.
  - apply (proj1 (getNextWorkoutDay_spec [])). intros r [].
  - apply (proj2 (getNextWorkoutDay_spec _) (mkRow "2024-01-08" 2 1 0)).
    + repeat constructor; simpl; intuition discriminate.
    + split; [now left|]. split; [reflexivity|].
      intros r' [<-|[<-|[]]] Hc; [reflexivity|discriminate].
    + simpl. lia.
Defined.

(** C2. When the row of greatest date is dated three days before today,
    [/api/status] appends exactly two backfilled rows, one for each of the
    two days between, both rescheduled, not completed and planned for the
    rotation value computed from the last completed row: the day [p] that
    [getNextWorkoutDay] gives on the table it was given, which is 1 when no
    row is completed and the remainder of the planned day of the completed
    row of greatest date by 5, plus 1, otherwise; today's row follows
    them. *)
Theorem api_status_backfills_two (today : string) (db : table) (e : row) (d : Z) :
  last_entry db e ->
  JSDate.in_range d -> JSDate.in_range (d + 3) ->
  date e = JSDate.toISODate d ->
  today = JSDate.toISODate (d + 3) ->
  exists p,
    getNextWorkoutDay db = Returns p db /\
    ((forall r, In r db -> completed r <> 1) -> p = 1) /\
    (forall r, unique_dates db -> last_completed db r ->
       p = Z.rem (planned_day r) 5 + 1 /\
       (0 <= planned_day r -> p = planned_day r mod 5 + 1)) /\
    api_status today db
    = Returns (mkRow today p 0 0)
        (db ++ [mkRow (JSDate.toISODate (d + 1)) p 0 1;
                mkRow (JSDate.toISODate (d + 2)) p 0 1;
                mkRow today p 0 0]).
Proof.
  intros Hlast Hd Ht He Htoday.
  exists (next_day db). split; [apply getNextWorkoutDay_run|].
  split; [apply next_day_none|]. split.
  - intros r Hnd Hr. rewrite (next_day_last db r Hnd Hr).
    split; [reflexivity|]. intros Hpos. now rewrite Z.rem_mod_nonneg by lia.
  - replace (d + 3) with (d + 1 + Z.of_nat 2) in * by lia.
    rewrite (api_status_gap today db e d 2 Hlast Hd Ht He Htoday).
    cbn [day_seq map app]. unfold gap_row.
    now replace (d + 1 + 1) with (d + 2) by ring.
Qed.

Lemma api_status_backfills_two_witness :
  api_status "2024-03-01" [mkRow "2024-02-26" 4 1 0; mkRow "2024-02-27" 2 1 0]
  = Returns (mkRow "2024-03-01" 3 0 0)
      ([mkRow "2024-02-26" 4 1 0; mkRow "2024-02-27" 2 1 0]
         ++ [mkRow "2024-02-28" 3 0 1; mkRow "2024-02-29" 3 0 1;
             mkRow "2024-03-01" 3 0 0]).
Proof.
  destruct (api_status_backfills_two "2024-03-01"
              [mkRow "2024-02-26" 4 1 0; mkRow "2024-02-27" 2 1 0]
              (mkRow "2024-02-27" 2 1 0) 19780)
    as (p & _ & _ & Hrot & Hstatus).
  - split; [simpl; auto|]. intros r' [<-|[<-|[]]]; reflexivity.
  - unfold JSDate.in_range, JSDate.MIN_DAY, JSDate.MAX_DAY. lia.
  - unfold JSDate.in_range, JSDate.MIN_DAY, JSDate.MAX_DAY. lia.
  - reflexivity.
  - reflexivity.
  - destruct (Hrot (mkRow "2024-02-27" 2 1 0)) as [Hp _].
    + repeat constructor; simpl; intuition discriminate.
    + split; [simpl; auto|]. split; [reflexivity|].
      intros r' [<-|[<-|[]]] _; reflexivity.
    + rewrite Hp in Hstatus. exact Hstatus.
Defined.

(** C3. [/api/status] always returns, and asked again for the same day on
    the table it left, it returns the same row and leaves the table as it
    is: nothing is inserted the second time. *)
Theorem api_status_idempotent (today : string) (db : table) :
  exists r db',
    api_status today db = Returns r db' /\
    api_status today db' = Returns r db'.
Proof.
  destruct (api_status_run today db) as (added & r & Hrun & Hf & _).
  exists r, (db ++ added). split; [assumption|].
  now apply api_status_existing.
Qed.

(** C4. With the single row [("2024-01-08", 2, completed)] and today
    2024-01-11, [/api/status] appends rows for 2024-01-09 and 2024-01-10, each
    planned for day 3, not completed and rescheduled, then today's row,
    planned for day 3, not completed and not rescheduled, which it returns. *)
Theorem api_status_three_day_gap (resch : Z) :
  api_status "2024-01-11" [mkRow "2024-01-08" 2 1 resch]
  = Returns (mkRow "2024-01-11" 3 0 0)
      [mkRow "2024-01-08" 2 1 resch;
       mkRow "2024-01-09" 3 0 1;
       mkRow "2024-01-10" 3 0 1;
       mkRow "2024-01-11" 3 0 0].
Proof. vm_compute. reflexivity. Qed.

(** C5. "Every planned day lies in 1..5" is an invariant of the table: it
    holds of the empty table, [getNextWorkoutDay] yields a day in 1..5 on a
    table that satisfies it, and both handlers return with a table that
    satisfies it again ([/api/status] through its backfill inserts and its
    insert for today, [/api/complete] through its update). *)
Theorem planned_day_invariant :
  planned_ok [] /\
  (forall db, planned_ok db ->
     exists n, getNextWorkoutDay db = Returns n db /\ 1 <= n <= 5) /\
  (forall today db, planned_ok db ->
     exists r db', api_status today db = Returns r db' /\
                   planned_ok db' /\ 1 <= planned_day r <= 5) /\
  (forall today db, planned_ok db ->
     exists db', api_complete today db = Returns true db' /\ planned_ok db').
Proof.
  split; [constructor|]. split; [|split].
  - intros db Hok. exists (next_day db).
    split; [apply getNextWorkoutDay_run|now apply next_day_range].
  - intros today db Hok.
    destruct (api_status_run today db) as (added & r & Hrun & Hf & Hall & _).
    exists r, (db ++ added). split; [assumption|].
    assert (Hok' : planned_ok (db ++ added)).
    { apply Forall_app. split; [assumption|].
      eapply Forall_impl; [|exact Hall].
      intros x (_ & Hp & _). rewrite Hp. now apply next_day_range. }
    split; [assumption|].
    apply find_has_date_Some in Hf as [Hin _].
    unfold planned_ok in Hok'. rewrite Forall_forall in Hok'. auto.
  - intros today db Hok. eexists. split; [apply api_complete_run|].
    unfold planned_ok in *. rewrite Forall_forall in *.
    intros x Hin. apply in_map_iff in Hin as (r & <- & Hin).
    specialize (Hok r Hin). now destruct (has_date today r).
Qed.

Lemma planned_day_invariant_witness :
  exists r db',
    api_status "2024-01-11" [mkRow "2024-01-08" 5 1 0] = Returns r db' /\
    planned_ok db' /\ 1 <= planned_day r <= 5.
Proof.
  apply (proj1 (proj2 (proj2 planned_day_invariant))).
  repeat constructor; simpl; lia.
Defined.

(** C6. On a non-empty table whose planned days all lie in 1..5,
    [getNextWorkoutDay] returns a day in 1..5: it is 1 when the last completed
    row has planned day 5, and [k + 1] when it has planned day [k] in 1..4. *)
Theorem getNextWorkoutDay_cycle (db : table) :
  db <> [] -> planned_ok db ->
  exists n,
    getNextWorkoutDay db = Returns n db /\
    1 <= n <= 5 /\
    forall r, unique_dates db -> last_completed db r ->
      (planned_day r = 5 -> n = 1) /\
      (1 <= planned_day r <= 4 -> n = planned_day r + 1).
Proof.
  intros _ Hok. exists (next_day db).
  split; [apply getNextWorkoutDay_run|].
  split; [now apply next_day_range|].
  intros r Hnd Hlast. rewrite (next_day_last db r Hnd Hlast). split.
  - intros ->. reflexivity.
  - intros Hk. rewrite Z.rem_small by lia. reflexivity.
Qed.

Lemma getNextWorkoutDay_cycle_witness :
  exists n,
    getNextWorkoutDay [mkRow "2024-01-08" 5 1 0] = Returns n [mkRow "2024-01-08" 5 1 0] /\
    1 <= n <= 5 /\
    forall r, unique_dates [mkRow "2024-01-08" 5 1 0] ->
      last_completed [mkRow "2024-01-08" 5 1 0] r ->
      (planned_day r = 5 -> n = 1) /\
      (1 <= planned_day r <= 4 -> n = planned_day r + 1).
Proof.
  apply (getNextWorkoutDay_cycle [mkRow "2024-01-08" 5 1 0]).
  - discriminate.
  - repeat constructor; simpl; lia.
Defined.

(** C7. [/api/complete] always succeeds and keeps every row at its place:
    a row dated today gets [completed = 1] and keeps its planned day and its
    rescheduled flag, every other row is left as it is; with no row dated
    today the table is unchanged. *)
Theorem api_complete_frame (today : string) (db : table) :
  exists db',
    api_complete today db = Returns true db' /\
    List.length db' = List.length db /\
    (forall i r, nth_error db i = Some r -> date r = today ->
       nth_error db' i = Some (mkRow today (planned_day r) 1 (rescheduled r))) /\
    (forall i r, nth_error db i = Some r -> date r <> today ->
       nth_error db' i = Some r) /\
    (~ In today (map date db) -> db' = db).
Proof.
  eexists. split; [apply api_complete_run|].
  split; [apply length_map|].
  split; [|split].
  - intros i r Hi Hd. rewrite nth_error_map, Hi. simpl.
    unfold has_date. rewrite Hd, String.eqb_refl.
    unfold set_completed. now rewrite Hd.
  - intros i r Hi Hd. rewrite nth_error_map, Hi. simpl.
    unfold has_date. apply String.eqb_neq in Hd. now rewrite Hd.
  - apply update_absent.
Qed.

Lemma api_complete_frame_witness :
  exists db',
    api_complete "2024-01-11" [mkRow "2024-01-10" 3 1 0; mkRow "2024-01-11" 4 0 1]
    = Returns true db' /\
    nth_error db' 1 = Some (mkRow "2024-01-11" 4 1 1) /\
    nth_error db' 0 = Some (mkRow "2024-01-10" 3 1 0).
Proof.
  destruct (api_complete_frame "2024-01-11"
              [mkRow "2024-01-10" 3 1 0; mkRow "2024-01-11" 4 0 1])
    as (db' & Hrun & _ & Htoday & Hother & _).
  exists db'. split; [exact Hrun|]. split.
  - apply (Htoday 1%nat (mkRow "2024-01-11" 4 0 1)); reflexivity.
  - apply (Hother 0%nat (mkRow "2024-01-10" 3 1 0)); [reflexivity|discriminate].
Defined.

(** C8. On the empty table, whatever the date, [/api/status] fills no gap:
    it inserts the one row [(today, 1, 0, 0)] and returns it. *)
Theorem api_status_empty (today : string) :
  api_status today [] = Returns (mkRow today 1 0 0) [mkRow today 1 0 0].
Proof. reflexivity. Qed.

(** C9. "No two rows share a date" is an invariant of the table, and no
    row is ever removed: [/api/status] returns with the table it was given
    followed by rows at dates that had none, and [/api/complete] returns with
    a table of the same dates in the same places. *)
Theorem unique_dates_invariant :
  unique_dates [] /\
  (forall today db, unique_dates db ->
     exists r added,
       api_status today db = Returns r (db ++ added) /\
       (forall x, In x added -> ~ In (date x) (map date db)) /\
       unique_dates (db ++ added)) /\
  (forall today db, unique_dates db ->
     exists db',
       api_complete today db = Returns true db' /\
       map date db' = map date db /\
       unique_dates db').
Proof.
  split; [constructor|]. split.
  - intros today db Hnd.
    destruct (api_status_run today db) as (added & r & Hrun & _ & Hall & Hnd').
    rewrite Forall_forall in Hall.
    exists r, added. split; [assumption|].
    split; [intros x Hx; now apply (Hall x Hx)|].
    unfold unique_dates. rewrite map_app.
    apply NoDup_app; trivial.
    intros d Hd Hd'. apply in_map_iff in Hd' as (x & <- & Hx).
    now apply (Hall x Hx).
  - intros today db Hnd. eexists. split; [apply api_complete_run|].
    unfold unique_dates. now rewrite update_dates.
Qed.

Lemma unique_dates_invariant_witness :
  exists r added,
    api_status "2024-01-11" [mkRow "2024-01-08" 2 1 0]
    = Returns r ([mkRow "2024-01-08" 2 1 0] ++ added) /\
    (forall x, In x added -> ~ In (date x) (map date [mkRow "2024-01-08" 2 1 0])) /\
    unique_dates ([mkRow "2024-01-08" 2 1 0] ++ added).
Proof.
  apply (proj1 (proj2 unique_dates_invariant)).
  repeat constructor; simpl; intuition.
Defined.

(** C10. When the row of greatest date is dated after today and no row is
    dated today, [/api/status] fills no gap: it appends the one row
    [(today, p, 0, 0)], with [p] the day [getNextWorkoutDay] gives on the
    table, and returns it. *)
Theorem api_status_entry_after_today (today : string) (db : table) (e : row) :
  last_entry db e ->
  String.ltb today (date e) = true ->
  ~ In today (map date db) ->
  exists p,
    getNextWorkoutDay db = Returns p db /\
    api_status today db = Returns (mkRow today p 0 0) (db ++ [mkRow today p 0 0]).
Proof.
  intros [Hin Hmax] Hafter Hnone.
  exists (next_day db). split; [apply getNextWorkoutDay_run|].
  unfold api_status. unfold bind at 1. unfold select_last_entry.
  unfold bind at 1.
  destruct (latest db) as [e'|] eqn:Hl.
  - apply latest_spec in Hl as [Hin' Hmax'].
    assert (Hd : date e' = date e)
      by (apply ltb_antisym; [apply Hmax', Hin|apply Hmax, Hin']).
    rewrite Hd, (ltb_asym _ _ Hafter).
    unfold ret at 1. unfold bind at 1. unfold select_by_date.
    apply find_has_date_None in Hnone as Hf. rewrite Hf.
    unfold bind. rewrite getNextWorkoutDay_run.
    unfold insert_planned. now rewrite insert_row_fresh.
  - apply latest_None in Hl. subst db. destruct Hin.
Qed.

Lemma api_status_entry_after_today_witness :
  exists p,
    getNextWorkoutDay [mkRow "2024-01-12" 4 1 0] = Returns p [mkRow "2024-01-12" 4 1 0] /\
    api_status "2024-01-11" [mkRow "2024-01-12" 4 1 0]
    = Returns (mkRow "2024-01-11" p 0 0)
        ([mkRow "2024-01-12" 4 1 0] ++ [mkRow "2024-01-11" p 0 0]).
Proof.
  apply (api_status_entry_after_today "2024-01-11" [mkRow "2024-01-12" 4 1 0]
           (mkRow "2024-01-12" 4 1 0)).
  - split; [now left|]. intros r' [<-|[]]. reflexivity.
  - reflexivity.
  - simpl. intuition discriminate.
Defined.

(** ** Queries in order *)
Section OrderBy.

Context {A : Type} (leb : A -> A -> bool).

Lemma insert_sorted_perm (x : A) (l : list A) :
  Permutation (insert_sorted leb x l) (x :: l).
Proof.
  induction l as [|y l IH]; simpl; [reflexivity|].
  destruct (leb x y); [reflexivity|].
  rewrite IH. apply perm_swap.
Qed.

Lemma order_by_perm (l : list A) : Permutation (order_by leb l) l.
Proof.
  induction l as [|x l IH]; simpl; [reflexivity|].
  fold (order_by leb l). rewrite insert_sorted_perm. now constructor.
Qed.

Hypothesis leb_total : forall a b, leb a b = true \/ leb b a = true.
Hypothesis leb_trans :
  forall a b c, leb a b = true -> leb b c = true -> leb a c = true.

Lemma insert_sorted_sorted (x : A) (l : list A) :
  StronglySorted (fun a b => leb a b = true) l ->
  StronglySorted (fun a b => leb a b = true) (insert_sorted leb x l).
Proof.
  induction 1 as [|y l Hs IH Hall]; simpl; [repeat constructor|].
  destruct (leb x y) eqn:Hxy.
  - constructor; [now constructor|].
    constructor; [assumption|].
    eapply Forall_impl; [|exact Hall]. intros z Hz. eauto.
  - constructor; [assumption|].
    eapply Permutation_Forall; [symmetry; apply insert_sorted_perm|].
    constructor; [|assumption].
    destruct (leb_total x y) as [H|H]; congruence.
Qed.

Lemma order_by_sorted (l : list A) :
  StronglySorted (fun a b => leb a b = true) (order_by leb l).
Proof.
  induction l as [|x l IH]; simpl; [constructor|].
  now apply insert_sorted_sorted.
Qed.

(** A sorted list is left as it is. *)
Lemma order_by_of_sorted (l : list A) :
  StronglySorted (fun a b => leb a b = true) l -> order_by leb l = l.
Proof.
  induction 1 as [|x l Hs IH Hall]; simpl; [reflexivity|].
  fold (order_by leb l). rewrite IH.
  destruct l as [|y l]; [reflexivity|]. simpl.
  inversion Hall as [|? ? Hxy _]; subst. now rewrite Hxy.
Qed.

End OrderBy.

(** ** [GET /api/calendar] *)
Section Calendar.

Lemma leb_ltb (s1 s2 : string) : String.leb s1 s2 = negb (String.ltb s2 s1).
Proof.
  unfold String.leb, String.ltb. rewrite (String.compare_antisym s1 s2).
  now destruct (String.compare s2 s1).
Qed.

Lemma date_leb_total (a b : row) :
  String.leb (date a) (date b) = true \/ String.leb (date b) (date a) = true.
Proof. apply String.leb_total. Qed.

Lemma date_leb_trans (a b c : row) :
  String.leb (date a) (date b) = true -> String.leb (date b) (date c) = true ->
  String.leb (date a) (date c) = true.
Proof.
  rewrite !leb_ltb, !negb_true_iff. intros Hab Hbc.
  eapply geb_trans; eassumption.
Qed.

(** In ascending order and with no date twice: in strictly ascending order. *)
Lemma sorted_unique_strict (l : list row) :
  StronglySorted (fun a b => String.leb (date a) (date b) = true) l ->
  NoDup (map date l) ->
  StronglySorted (fun a b => String.ltb (date a) (date b) = true) l.
Proof.
  induction 1 as [|x l Hs IH Hall]; simpl; intros Hnd; [constructor|].
  inversion Hnd as [|? ? Hnotin Hnd']; subst.
  constructor; [auto|].
  rewrite Forall_forall in *. intros y Hy.
  specialize (Hall y Hy). rewrite leb_ltb, negb_true_iff in Hall.
  destruct (String.ltb (date x) (date y)) eqn:Hlt; [reflexivity|].
  exfalso. apply Hnotin. rewrite (ltb_antisym _ _ Hlt Hall). now apply in_map.
Qed.

End Calendar.

(** X1. [/api/calendar] writes nothing and returns the rows of the table,
    each once, in ascending order of date; with the primary key in force the
    order is strict. *)
Theorem api_calendar_sorted (db : table) :
  exists rows,
    api_calendar db = Returns rows db /\
    Permutation rows db /\
    StronglySorted (fun a b => String.leb (date a) (date b) = true) rows /\
    (unique_dates db ->
     StronglySorted (fun a b => String.ltb (date a) (date b) = true) rows).
Proof.
  eexists. split; [reflexivity|].
  split; [apply order_by_perm|].
  split; [apply order_by_sorted; [apply date_leb_total|apply date_leb_trans]|].
  intros Hnd. apply sorted_unique_strict.
  - apply order_by_sorted; [apply date_leb_total|apply date_leb_trans].
  - unfold unique_dates in Hnd.
    eapply Permutation_NoDup; [|exact Hnd].
    apply Permutation_map. symmetry. apply order_by_perm.
Qed.

Lemma api_calendar_sorted_witness :
  exists rows,
    api_calendar [mkRow "2024-01-10" 3 0 0; mkRow "2024-01-08" 2 1 0]
    = Returns rows [mkRow "2024-01-10" 3 0 0; mkRow "2024-01-08" 2 1 0] /\
    StronglySorted (fun a b => String.ltb (date a) (date b) = true) rows.
Proof.
  destruct (api_calendar_sorted [mkRow "2024-01-10" 3 0 0; mkRow "2024-01-08" 2 1 0])
    as (rows & Hrun & _ & _ & Hstrict).
  exists rows. split; [exact Hrun|]. apply Hstrict.
  repeat constructor; simpl; intuition discriminate.
Defined.

(** ** [GET /api/workouts] *)
Section Grouping.

Lemma obj_get_set_same (k : Z) (v : list workout) (acc : grouped) :
  obj_get k (obj_set k v acc) = Some v.
Proof.
  induction acc as [|[k' v'] rest IH]; simpl.
  - now rewrite Z.eqb_refl.
  - destruct (Z.eqb_spec k' k); simpl.
    + subst. now rewrite Z.eqb_refl.
    + destruct (Z.eqb_spec k' k); [contradiction|assumption].
Qed.

Lemma obj_get_set_other (k k0 : Z) (v : list workout) (acc : grouped) :
  k0 <> k -> obj_get k (obj_set k0 v acc) = obj_get k acc.
Proof.
  intros Hne. induction acc as [|[k' v'] rest IH]; simpl.
  - destruct (Z.eqb_spec k0 k); [contradiction|reflexivity].
  - destruct (Z.eqb_spec k' k0); simpl.
    + subst. destruct (Z.eqb_spec k0 k); [contradiction|reflexivity].
    + now rewrite IH.
Qed.

(** What one more workout does to the array of day [k]. *)
Lemma obj_get_group_push (k : Z) (acc : grouped) (curr : workout) :
  obj_get k (group_push acc curr) =
  if Workouts.day_number curr =? k
  then Some (match obj_get k acc with Some arr => arr | None => [] end ++ [curr])
  else obj_get k acc.
Proof.
  unfold group_push.
  destruct (Z.eqb_spec (Workouts.day_number curr) k) as [->|Hne].
  - destruct (obj_get k acc) as [arr|] eqn:Hget.
    + rewrite Hget. apply obj_get_set_same.
    + rewrite obj_get_set_same. apply obj_get_set_same.
  - destruct (obj_get (Workouts.day_number curr) acc) as [arr|] eqn:Hget.
    + rewrite Hget. now apply obj_get_set_other.
    + rewrite obj_get_set_same. now rewrite !obj_get_set_other.
Qed.

Lemma obj_get_fold_group_push (k : Z) (l : list workout) :
  forall acc,
    obj_get k (fold_left group_push l acc) =
    match obj_get k acc, select_workouts_by_day k l with
    | None, [] => None
    | None, g => Some g
    | Some arr, g => Some (arr ++ g)
    end.
Proof.
  induction l as [|w l IH]; intros acc; simpl.
  - destruct (obj_get k acc); [now rewrite app_nil_r|reflexivity].
  - rewrite IH, obj_get_group_push.
    destruct (Z.eqb_spec (Workouts.day_number w) k) as [Hk|Hk].
    + destruct (obj_get k acc) as [arr|]; simpl.
      * now rewrite <- app_assoc.
      * reflexivity.
    + destruct (obj_get k acc) as [arr|]; reflexivity.
Qed.

End Grouping.

(** X2. In the object [/api/workouts] returns, the array under a day number
    is the list of the workouts of that day, in the order the query yields
    them, and a day with no workout has no key; every workout of the table is
    in the array of its day. *)
Theorem api_workouts_groups (ws : list workout) (k : Z) :
  obj_get k (api_workouts ws) =
  match select_workouts_by_day k (select_workouts_ordered ws) with
  | [] => None
  | g => Some g
  end /\
  (forall w, In w ws -> Workouts.day_number w = k ->
     exists g, obj_get k (api_workouts ws) = Some g /\ In w g).
Proof.
  assert (Hget : obj_get k (api_workouts ws) =
    match select_workouts_by_day k (select_workouts_ordered ws) with
    | [] => None
    | g => Some g
    end).
  { unfold api_workouts. rewrite obj_get_fold_group_push. simpl.
    now destruct (select_workouts_by_day k (select_workouts_ordered ws)). }
  split; [exact Hget|].
  intros w Hin Hk.
  assert (Hw : In w (select_workouts_by_day k (select_workouts_ordered ws))).
  { apply filter_In. split.
    - eapply Permutation_in; [symmetry; apply order_by_perm|exact Hin].
    - now apply Z.eqb_eq. }
  rewrite Hget.
  destruct (select_workouts_by_day k (select_workouts_ordered ws)) as [|x g];
    [destruct Hw|].
  eexists. split; [reflexivity|exact Hw].
Qed.

Lemma api_workouts_groups_witness :
  exists g,
    obj_get 2 (api_workouts
                 [Workouts.mkWorkout 1 2 "Remada" "3" "10";
                  Workouts.mkWorkout 2 1 "Supino" "3" "10"]) = Some g /\
    In (Workouts.mkWorkout 1 2 "Remada" "3" "10") g.
Proof.
  apply (proj2 (api_workouts_groups _ 2)); [now left|reflexivity].
Defined.

(** ** The keys of the grouped object *)
Section GroupKeys.

Lemma keys_obj_set (k : Z) (v : list workout) (acc : grouped) :
  map fst (obj_set k v acc) =
  match obj_get k acc with
  | Some _ => map fst acc
  | None => map fst acc ++ [k]
  end.
Proof.
  induction acc as [|[k' v'] rest IH]; simpl; [reflexivity|].
  destruct (Z.eqb_spec k' k); simpl; [reflexivity|].
  rewrite IH. now destruct (obj_get k rest).
Qed.

Lemma keys_group_push (acc : grouped) (curr : workout) :
  map fst (group_push acc curr) =
  match obj_get (Workouts.day_number curr) acc with
  | Some _ => map fst acc
  | None => map fst acc ++ [Workouts.day_number curr]
  end.
Proof.
  unfold group_push.
  destruct (obj_get (Workouts.day_number curr) acc) as [arr|] eqn:Hget.
  - rewrite Hget, keys_obj_set. now rewrite Hget.
  - rewrite obj_get_set_same, keys_obj_set, obj_get_set_same.
    rewrite keys_obj_set. now rewrite Hget.
Qed.

Lemma obj_get_None_key (k : Z) (acc : grouped) :
  obj_get k acc = None -> ~ In k (map fst acc).
Proof.
  induction acc as [|[k' v'] rest IH]; simpl; [tauto|].
  destruct (Z.eqb_spec k' k); [discriminate|]. intuition.
Qed.

Lemma StronglySorted_snoc (l : list Z) (k : Z) :
  StronglySorted Z.lt l -> Forall (fun x => x < k) l ->
  StronglySorted Z.lt (l ++ [k]).
Proof.
  induction 1 as [|x l Hs IH Hall]; simpl; intros Hk; [repeat constructor|].
  inversion Hk; subst. constructor; [auto|].
  apply Forall_app. split; [assumption|]. now repeat constructor.
Qed.

(** Fed in ascending order of day number, the reducer adds its keys in
    strictly ascending order. *)
Lemma keys_fold_group_push (l : list workout) :
  forall acc,
    StronglySorted
      (fun a b => (Workouts.day_number a <=? Workouts.day_number b) = true) l ->
    StronglySorted Z.lt (map fst acc) ->
    (forall k w, In k (map fst acc) -> In w l -> k <= Workouts.day_number w) ->
    StronglySorted Z.lt (map fst (fold_left group_push l acc)).
Proof.
  induction l as [|w l IH]; intros acc Hl Hacc Hle; simpl; [assumption|].
  inversion Hl as [|? ? Hl' Hwl]; subst.
  rewrite Forall_forall in Hwl.
  apply IH; trivial.
  - rewrite keys_group_push.
    destruct (obj_get (Workouts.day_number w) acc) eqn:Hget; [assumption|].
    apply StronglySorted_snoc; [assumption|].
    apply Forall_forall. intros k Hk.
    apply obj_get_None_key in Hget.
    specialize (Hle k w Hk (or_introl eq_refl)).
    assert (k <> Workouts.day_number w) by (intros ->; contradiction). lia.
  - intros k w' Hk Hw'. rewrite keys_group_push in Hk.
    specialize (Hwl w' Hw'). apply Z.leb_le in Hwl.
    destruct (obj_get (Workouts.day_number w) acc).
    + apply Hle; [assumption|now right].
    + apply in_app_iff in Hk as [Hk|[<-|[]]]; [|assumption].
      apply Hle; [assumption|now right].
Qed.

End GroupKeys.

(** X3. The keys the reducer of [/api/workouts] adds to its object are the
    day numbers that occur in the table, each added once, in ascending
    order. *)
Theorem api_workouts_keys (ws : list workout) :
  StronglySorted Z.lt (map fst (api_workouts ws)) /\
  forall k, In k (map fst (api_workouts ws)) <->
            In k (map Workouts.day_number ws).
Proof.
  split.
  - unfold api_workouts. apply keys_fold_group_push.
    + apply order_by_sorted.
      * intros a b.
        destruct (Z.leb_spec (Workouts.day_number a) (Workouts.day_number b));
          [now left|right; apply Z.leb_le; lia].
      * intros a b c Hab Hbc. apply Z.leb_le in Hab, Hbc. apply Z.leb_le. lia.
    + constructor.
    + intros k w [].
  - intros k.
    assert (Hkey : In k (map fst (api_workouts ws)) <->
                   obj_get k (api_workouts ws) <> None).
    { generalize (api_workouts ws). intros acc.
      induction acc as [|[k' v'] rest IH]; simpl; [tauto|].
      destruct (Z.eqb_spec k' k); [split; [discriminate|auto]|].
      rewrite <- IH. intuition. }
    rewrite Hkey.
    unfold api_workouts. rewrite obj_get_fold_group_push. simpl.
    rewrite in_map_iff. split.
    + intros Hne.
      destruct (select_workouts_by_day k (select_workouts_ordered ws))
        as [|w g] eqn:Hsel; [congruence|].
      assert (Hw : In w (select_workouts_by_day k (select_workouts_ordered ws)))
        by (rewrite Hsel; now left).
      apply filter_In in Hw as [Hw Hk]. exists w. split.
      * now apply Z.eqb_eq.
      * eapply Permutation_in; [apply order_by_perm|exact Hw].
    + intros (w & Hk & Hw).
      assert (Hin : In w (select_workouts_by_day k (select_workouts_ordered ws))).
      { apply filter_In. split.
        - eapply Permutation_in; [symmetry; apply order_by_perm|exact Hw].
        - now apply Z.eqb_eq. }
      destruct (select_workouts_by_day k (select_workouts_ordered ws));
        [destruct Hin|discriminate].
Qed.

Lemma api_workouts_keys_witness :
  In 2 (map fst (api_workouts
                   [Workouts.mkWorkout 1 2 "Remada" "3" "10";
                    Workouts.mkWorkout 2 1 "Supino" "3" "10"])).
Proof.
  apply (proj2 (api_workouts_keys _)). simpl. now left.
Defined.

(** ** Seeding *)
Section Seeding.

Lemma length_zero_nil {A : Type} (l : list A) :
  (Z.of_nat (List.length l) =? 0) = true <-> l = [].
Proof.
  destruct l; simpl; [tauto|]. split; discriminate.
Qed.

Lemma seed_nonempty (D : database) : workouts D <> [] -> seed D = D.
Proof.
  intros Hne. unfold seed.
  destruct (Z.of_nat (List.length (workouts D)) =? 0) eqn:E; [|reflexivity].
  apply length_zero_nil in E. contradiction.
Qed.

Lemma seed_empty (D : database) :
  workouts D = [] ->
  seed D = mkDatabase (fold_left insertWorkout initialWorkouts [])
                      (fold_left insertDiet initialDiets (diets D))
                      (trained_days D).
Proof. intros He. unfold seed. now rewrite He. Qed.

Lemma max_ids_bound (ids : list Z) :
  0 <= fold_right Z.max 0 ids /\ forall x, In x ids -> x <= fold_right Z.max 0 ids.
Proof.
  induction ids as [|i ids [IH0 IH]]; simpl; [split; [lia|tauto]|].
  split; [lia|]. intros x [<-|Hx]; [lia|]. specialize (IH x Hx). lia.
Qed.

(** The rows a list of inserts adds to the diets table: the old rows stay,
    the new ones follow in the order of the list, with its columns, each under
    an id above every id before it. *)
Lemma fold_insertDiet_added (l : list (string * string * string)) :
  forall ds,
    exists added,
      fold_left insertDiet l ds = ds ++ added /\
      map (fun d => (Diets.meal_name d, Diets.items d, Diets.total_protein d))
        added = l /\
      StronglySorted Z.lt (map Diets.id added) /\
      forall a o, In a added -> In o ds -> Diets.id o < Diets.id a.
Proof.
  induction l as [|[[meal its] protein] l IH]; intros ds.
  - exists []. rewrite app_nil_r. repeat split; try constructor.
    intros a o [].
  - cbn [fold_left insertDiet].
    set (r0 := Diets.mkDiet (next_id (map Diets.id ds)) meal its protein).
    destruct (IH (ds ++ [r0])) as (added & Hrun & Hcols & Hsorted & Hnew).
    assert (Hr0 : forall o, In o ds -> Diets.id o < Diets.id r0).
    { intros o Ho. cbn [r0 Diets.id]. unfold next_id.
      destruct (max_ids_bound (map Diets.id ds)) as [_ Hmax].
      specialize (Hmax _ (in_map Diets.id _ _ Ho)). lia. }
    exists (r0 :: added). rewrite Hrun, <- app_assoc.
    split; [reflexivity|]. split; [cbn [map]; now rewrite Hcols|]. split.
    + cbn [map]. constructor; [assumption|].
      apply Forall_forall. intros i Hi.
      apply in_map_iff in Hi as (a & <- & Ha).
      apply Hnew; [assumption|]. apply in_app_iff. right. now left.
    + intros a o [<-|Ha] Ho; [now apply Hr0|].
      apply Hnew; [assumption|]. apply in_app_iff. now left.
Qed.

End Seeding.

(** X4. Seeding looks at the workouts table only: when it holds a row,
    nothing is changed, not even an empty diets table; seeding never touches
    [trained_days]; and seeding twice is seeding once. *)
Theorem seed_once (D : database) :
  seed (seed D) = seed D /\
  trained_days (seed D) = trained_days D /\
  (workouts D <> [] -> seed D = D).
Proof.
  split; [|split].
  - destruct (workouts D) as [|w ws] eqn:Hw.
    + rewrite (seed_empty D Hw). now apply seed_nonempty.
    + rewrite (seed_nonempty D) by (rewrite Hw; discriminate).
      apply seed_nonempty. rewrite Hw. discriminate.
  - unfold seed. now destruct (Z.of_nat (List.length (workouts D)) =? 0).
  - apply seed_nonempty.
Qed.

Lemma seed_once_witness :
  seed (mkDatabase [Workouts.mkWorkout 1 1 "Supino" "3" "10"] [] [])
  = mkDatabase [Workouts.mkWorkout 1 1 "Supino" "3" "10"] [] [].
Proof.
  apply (proj2 (proj2 (seed_once _))). discriminate.
Defined.

(** X5. When the workouts table is empty, seeding fills it with the
    exercises of [initialWorkouts], column by column and in their order, under
    ids that grow from row to row; and it appends the meals of [initialDiets]
    to the diets table whatever that table holds: the old rows stay as they
    are, the new rows follow with the columns of the list, in its order, each
    under an id above every id the table held before it. *)
Theorem seed_empty_workouts (D : database) :
  workouts D = [] ->
  map (fun w => (Workouts.day_number w, Workouts.exercise_name w,
                 Workouts.sets w, Workouts.reps w)) (workouts (seed D))
  = initialWorkouts /\
  StronglySorted Z.lt (map Workouts.id (workouts (seed D))) /\
  exists added,
    diets (seed D) = diets D ++ added /\
    map (fun d => (Diets.meal_name d, Diets.items d, Diets.total_protein d))
      added = initialDiets /\
    StronglySorted Z.lt (map Diets.id added) /\
    forall a o, In a added -> In o (diets D) -> Diets.id o < Diets.id a.
Proof.
  intros He. rewrite (seed_empty D He). cbn [workouts diets].
  split; [vm_compute; reflexivity|].
  split; [vm_compute; repeat constructor|].
  apply fold_insertDiet_added.
Qed.

Lemma seed_empty_workouts_witness :
  exists added,
    diets (seed (mkDatabase [] [Diets.mkDiet 7 "Ceia" "1 iogurte" "10g"] []))
    = [Diets.mkDiet 7 "Ceia" "1 iogurte" "10g"] ++ added /\
    map (fun d => (Diets.meal_name d, Diets.items d, Diets.total_protein d))
      added = initialDiets.
Proof.
  destruct (seed_empty_workouts
              (mkDatabase [] [Diets.mkDiet 7 "Ceia" "1 iogurte" "10g"] [])
              eq_refl) as (_ & _ & added & Hrun & Hcols & _).
  exists added. split; [exact Hrun|exact Hcols].
Defined.

(** X6. With the seeded plan and a table whose planned days lie in 1..5,
    the response of [/api/status] carries the status row the handler returns
    on its own, the diet list as it is, and a list of workouts that is not
    empty and holds exactly the exercises seeded for the planned day of that
    row. *)
Theorem status_response_workouts (D : database) (today : string) :
  workouts D = [] -> planned_ok (trained_days D) ->
  exists r wl db',
    api_status today (trained_days (seed D)) = Returns r db' /\
    status_response (workouts (seed D)) (diets (seed D)) today
      (trained_days (seed D))
    = Returns (r, wl, diets (seed D)) db' /\
    wl <> [] /\
    (forall w, In w wl <->
       In w (workouts (seed D)) /\ Workouts.day_number w = planned_day r).
Proof.
  intros He Hok. rewrite (seed_empty D He). cbn [workouts diets trained_days].
  destruct (api_status_run today (trained_days D))
    as (added & r & Hrun & Hf & Hall & _).
  exists r, (select_workouts_by_day (planned_day r)
               (fold_left insertWorkout initialWorkouts [])),
    (trained_days D ++ added).
  split; [exact Hrun|].
  split; [unfold status_response, bind; now rewrite Hrun|].
  split.
  - assert (Hp : 1 <= planned_day r <= 5).
    { apply find_has_date_Some in Hf as [Hin _].
      apply in_app_iff in Hin as [Hin|Hin].
      - unfold planned_ok in Hok. rewrite Forall_forall in Hok. auto.
      - rewrite Forall_forall in Hall. destruct (Hall r Hin) as (_ & Hp & _).
        rewrite Hp. now apply next_day_range. }
    assert (Hc : planned_day r = 1 \/ planned_day r = 2 \/ planned_day r = 3 \/
                 planned_day r = 4 \/ planned_day r = 5) by lia.
    destruct Hc as [-> | [-> | [-> | [-> | ->]]]]; vm_compute; discriminate.
  - intros w. unfold select_workouts_by_day. rewrite filter_In, Z.eqb_eq.
    reflexivity.
Qed.

Lemma status_response_workouts_witness :
  exists r wl db',
    api_status "2024-01-11" [mkRow "2024-01-10" 3 1 0] = Returns r db' /\
    status_response (workouts (seed (mkDatabase [] [] [mkRow "2024-01-10" 3 1 0])))
      (diets (seed (mkDatabase [] [] [mkRow "2024-01-10" 3 1 0]))) "2024-01-11"
      [mkRow "2024-01-10" 3 1 0]
    = Returns (r, wl, diets (seed (mkDatabase [] [] [mkRow "2024-01-10" 3 1 0]))) db' /\
    wl <> [].
Proof.
  destruct (status_response_workouts
              (mkDatabase [] [] [mkRow "2024-01-10" 3 1 0]) "2024-01-11" eq_refl)
    as (r & wl & db' & H1 & H2 & H3 & _).
  - repeat constructor; simpl; lia.
  - exists r, wl, db'. repeat split; assumption.
Defined.

(** ** [GET /api/stats] *)
Section Stats.

Lemma key_eqb_eq (a b : option Z) : key_eqb a b = true <-> a = b.
Proof.
  destruct a as [x|], b as [y|]; simpl; try (split; congruence).
  rewrite Z.eqb_eq. split; congruence.
Qed.

Lemma key_eqb_refl (a : option Z) : key_eqb a a = true.
Proof. now apply key_eqb_eq. Qed.

Lemma key_ltb_trans (a b c : option Z) :
  key_ltb a b = true -> key_ltb b c = true -> key_ltb a c = true.
Proof.
  destruct a as [x|], b as [y|], c as [z|]; simpl; try congruence.
  rewrite !Z.ltb_lt. lia.
Qed.

Lemma key_trichotomy (a b : option Z) :
  key_eqb a b = false -> key_ltb a b = false -> key_ltb b a = true.
Proof.
  destruct a as [x|], b as [y|]; simpl; try congruence.
  rewrite Z.eqb_neq, Z.ltb_ge, Z.ltb_lt. lia.
Qed.

Lemma bump_total (k : option Z) (groups : list (option Z * Z)) :
  total_of (bump k groups) = total_of groups + 1.
Proof.
  unfold total_of.
  induction groups as [|[k' n] rest IH]; cbn [bump map snd fold_right]; [lia|].
  destruct (key_eqb k k'); cbn [map snd fold_right]; [lia|].
  destruct (key_ltb k k'); cbn [map snd fold_right]; lia.
Qed.

Lemma bump_positive (k : option Z) (groups : list (option Z * Z)) :
  Forall (fun g => 1 <= snd g) groups ->
  Forall (fun g => 1 <= snd g) (bump k groups).
Proof.
  induction 1 as [|[k' n] rest Hn Hrest IH]; simpl;
    [repeat constructor; simpl; lia|].
  simpl in Hn.
  destruct (key_eqb k k'); [constructor; [simpl; lia|assumption]|].
  destruct (key_ltb k k'); repeat (constructor; simpl; try lia; trivial).
Qed.

Lemma bump_keys (k : option Z) (groups : list (option Z * Z)) :
  forall g, In g (bump k groups) -> fst g = k \/ In (fst g) (map fst groups).
Proof.
  induction groups as [|[k' n] rest IH]; simpl; intros g.
  - intros [<-|[]]. now left.
  - destruct (key_eqb k k');
      [intros [<-|Hg]; right; simpl; auto using in_map|].
    destruct (key_ltb k k').
    + intros [<-|[<-|Hg]]; simpl; auto using in_map.
    + intros [<-|Hg]; simpl; [auto|]. destruct (IH g Hg); auto.
Qed.

Lemma bump_ascending (k : option Z) (groups : list (option Z * Z)) :
  keys_ascending groups -> keys_ascending (bump k groups).
Proof.
  unfold keys_ascending.
  induction 1 as [|[k' n] rest Hs IH Hall]; simpl; [repeat constructor|].
  destruct (key_eqb k k') eqn:Heq.
  - constructor; assumption.
  - destruct (key_ltb k k') eqn:Hlt.
    + constructor; [now constructor|].
      constructor; [assumption|].
      eapply Forall_impl; [|exact Hall]. simpl. intros g Hg.
      eapply key_ltb_trans; eassumption.
    + constructor; [assumption|].
      apply Forall_forall. intros g Hg. simpl.
      destruct (bump_keys k rest g Hg) as [->|Hin].
      * now apply key_trichotomy.
      * rewrite Forall_forall in Hall.
        apply in_map_iff in Hin as (g' & <- & Hg'). apply (Hall g' Hg').
Qed.

Lemma count_of_above (k : option Z) (groups : list (option Z * Z)) :
  Forall (fun g => key_ltb k (fst g) = true) groups -> count_of k groups = 0.
Proof.
  unfold count_of. induction 1 as [|[k' n] rest Hk _ IH]; simpl; [reflexivity|].
  simpl in Hk. destruct (key_eqb k k') eqn:Heq; [|assumption].
  apply key_eqb_eq in Heq. subst.
  destruct k' as [x|]; simpl in Hk; [|discriminate].
  apply Z.ltb_lt in Hk. lia.
Qed.

(** One more row of key [k] raises the count of [k] alone. *)
Lemma bump_count (k k0 : option Z) (groups : list (option Z * Z)) :
  keys_ascending groups ->
  count_of k0 (bump k groups)
  = count_of k0 groups + (if key_eqb k0 k then 1 else 0).
Proof.
  unfold keys_ascending.
  induction 1 as [|[k' n] rest Hs IH Hall]; simpl.
  - unfold count_of. simpl. destruct (key_eqb k0 k); reflexivity.
  - destruct (key_eqb k k') eqn:Heq.
    + apply key_eqb_eq in Heq. subst k'.
      unfold count_of. simpl. destruct (key_eqb k0 k); simpl; lia.
    + destruct (key_ltb k k') eqn:Hlt.
      * destruct (key_eqb k0 k) eqn:H0.
        -- apply key_eqb_eq in H0. subst k0.
           rewrite (count_of_above k ((k', n) :: rest)).
           ++ unfold count_of. simpl. now rewrite key_eqb_refl.
           ++ constructor; [assumption|].
              eapply Forall_impl; [|exact Hall]. simpl. intros g Hg.
              eapply key_ltb_trans; eassumption.
        -- unfold count_of. simpl. rewrite H0. lia.
      * unfold count_of in *. simpl.
        destruct (key_eqb k0 k') eqn:H0'.
        -- apply key_eqb_eq in H0'. subst k0.
           assert (key_eqb k' k = false) as ->; [|simpl; lia].
           destruct (key_eqb k' k) eqn:E; [|reflexivity].
           apply key_eqb_eq in E. subst. now rewrite key_eqb_refl in Heq.
        -- exact IH.
Qed.

Lemma group_count_spec (keys : list (option Z)) :
  forall groups,
    keys_ascending groups -> Forall (fun g => 1 <= snd g) groups ->
    let out := fold_left (fun groups k => bump k groups) keys groups in
    keys_ascending out /\
    Forall (fun g => 1 <= snd g) out /\
    total_of out = total_of groups + Z.of_nat (List.length keys) /\
    forall k, count_of k out
              = count_of k groups
                + Z.of_nat (List.length (filter (key_eqb k) keys)).
Proof.
  induction keys as [|k keys IH]; intros groups Hasc Hpos; simpl.
  - repeat split; trivial; try (intros; lia).
  - destruct (IH (bump k groups) (bump_ascending k groups Hasc)
                (bump_positive k groups Hpos)) as (H1 & H2 & H3 & H4).
    repeat split; trivial.
    + rewrite H3, bump_total. lia.
    + intros k0. rewrite H4, bump_count by assumption.
      destruct (key_eqb k0 k); simpl List.length; lia.
Qed.

Lemma filter_length_map {A B : Type} (f : B -> bool) (g : A -> B) (l : list A) :
  List.length (filter f (map g l)) = List.length (filter (fun x => f (g x)) l).
Proof.
  induction l as [|x l IH]; simpl; [reflexivity|].
  destruct (f (g x)); simpl; now rewrite IH.
Qed.

Lemma filter_filter {A : Type} (f g : A -> bool) (l : list A) :
  filter f (filter g l) = filter (fun x => g x && f x) l.
Proof.
  induction l as [|x l IH]; simpl; [reflexivity|].
  destruct (g x); simpl; [destruct (f x)|]; now rewrite IH.
Qed.

End Stats.

(** The weekday of a day the handlers date a row with: day 0 was a
    Thursday. *)
Lemma strftime_w_toISODate (d : Z) :
  JSDate.in_range d -> strftime_w (JSDate.toISODate d) = Some ((d + 4) mod 7).
Proof.
  intros Hd. unfold strftime_w. now rewrite JSDateFacts.parse_toISODate.
Qed.

(** X7. [/api/stats] writes nothing; its weekly rows come in ascending order
    of key, none with a count below 1, and the counts add up to
    [totalCompleted].  On a table whose rows are dated as the handlers date
    them (calendar days of the years 0000 to 9999, on which [strftime('%w')]
    is the weekday, 0 for Sunday), the keys are weekdays from 0 to 6, none is
    NULL, and the count under a weekday is the number of completed rows whose
    date falls on it. *)
Theorem api_stats_weekly (db : table) :
  exists st,
    api_stats db = Returns st db /\
    StronglySorted (fun a b => key_ltb (fst a) (fst b) = true)
      (weeklyConsistency st) /\
    Forall (fun g => 1 <= snd g) (weeklyConsistency st) /\
    total_of (weeklyConsistency st) = totalCompleted st /\
    (forall d, JSDate.in_range d ->
       strftime_w (JSDate.toISODate d) = Some ((d + 4) mod 7)) /\
    ((forall r, In r db ->
        exists d, JSDate.in_range d /\ date r = JSDate.toISODate d) ->
     count_of None (weeklyConsistency st) = 0 /\
     (forall w, count_of (Some w) (weeklyConsistency st) <> 0 -> 0 <= w <= 6) /\
     forall w,
       count_of (Some w) (weeklyConsistency st)
       = count_rows
           (fun r => is_completed r && key_eqb (Some w) (strftime_w (date r)))
           db).
Proof.
  eexists. split; [reflexivity|]. cbn [weeklyConsistency totalCompleted].
  destruct (group_count_spec
              (map (fun r => strftime_w (date r)) (filter is_completed db)) [])
    as (H1 & H2 & H3 & H4); [constructor|constructor|].
  assert (Hcount : forall k,
    count_of k (group_count
                  (map (fun r => strftime_w (date r)) (filter is_completed db)))
    = count_rows (fun r => is_completed r && key_eqb k (strftime_w (date r))) db).
  { intros k. unfold group_count. rewrite H4. unfold count_of, count_rows.
    simpl. now rewrite filter_length_map, filter_filter. }
  split; [exact H1|]. split; [exact H2|]. split.
  { unfold group_count. rewrite H3, length_map. reflexivity. }
  split; [exact strftime_w_toISODate|].
  intros Hdates.
  assert (Hzero : forall k,
    (forall d, JSDate.in_range d -> k <> Some ((d + 4) mod 7)) ->
    count_rows (fun r => is_completed r && key_eqb k (strftime_w (date r))) db
    = 0).
  { intros k Hk. unfold count_rows.
    rewrite (filter_ext_in _ (fun _ => false)); [now rewrite filter_false|].
    intros r Hr.
    apply andb_false_iff. right.
    destruct (Hdates r Hr) as (d & Hd & ->).
    rewrite strftime_w_toISODate by assumption.
    destruct (key_eqb k (Some ((d + 4) mod 7))) eqn:E; [|reflexivity].
    apply key_eqb_eq in E. now destruct (Hk d Hd). }
  split; [|split].
  - rewrite Hcount. apply Hzero. discriminate.
  - intros w Hw.
    destruct (Z.le_gt_cases 0 w) as [H0|H0];
      [destruct (Z.le_gt_cases w 6) as [H6|H6]; [lia|]|];
      exfalso; apply Hw; rewrite Hcount; apply Hzero;
      intros d _ [= ->]; pose proof (Z.mod_pos_bound (d + 4) 7); lia.
  - intros w. apply Hcount.
Qed.

Lemma api_stats_weekly_witness :
  exists st,
    api_stats [mkRow "2024-01-08" 1 1 0; mkRow "2024-01-09" 2 0 1]
    = Returns st [mkRow "2024-01-08" 1 1 0; mkRow "2024-01-09" 2 0 1] /\
    count_of None (weeklyConsistency st) = 0 /\
    count_of (Some 1) (weeklyConsistency st)
    = count_rows
        (fun r => is_completed r && key_eqb (Some 1) (strftime_w (date r)))
        [mkRow "2024-01-08" 1 1 0; mkRow "2024-01-09" 2 0 1].
Proof.
  destruct (api_stats_weekly [mkRow "2024-01-08" 1 1 0; mkRow "2024-01-09" 2 0 1])
    as (st & Hrun & _ & _ & _ & _ & Hvalid).
  exists st. split; [exact Hrun|].
  destruct Hvalid as (Hnull & _ & Hcount).
  - intros r [<-|[<-|[]]].
    + exists 19730. split; [|reflexivity].
      unfold JSDate.in_range, JSDate.MIN_DAY, JSDate.MAX_DAY. lia.
    + exists 19731. split; [|reflexivity].
      unfold JSDate.in_range, JSDate.MIN_DAY, JSDate.MAX_DAY. lia.
  - split; [exact Hnull|apply Hcount].
Defined.

(** ** What the requests do to the counts and to the rows *)
Section Effects.

Lemma filter_completed_app (db added : table) :
  Forall (fun r => completed r = 0) added ->
  filter is_completed (db ++ added) = filter is_completed db.
Proof.
  intros H. rewrite filter_app.
  replace (filter is_completed added) with (@nil row); [apply app_nil_r|].
  induction H as [|r l Hr _ IH]; simpl; [reflexivity|].
  unfold is_completed at 1. now rewrite Hr.
Qed.

Lemma length_filter_app (f : row -> bool) (db added : table) :
  (List.length (filter f db) <= List.length (filter f (db ++ added)))%nat.
Proof. rewrite filter_app, length_app. lia. Qed.

(** What [/api/status] returns with is the table it was given and the rows
    it added, none of them completed. *)
Lemma api_status_added (today : string) (db : table) (r : row) (db' : table) :
  api_status today db = Returns r db' ->
  exists added, db' = db ++ added /\ Forall (fun x => completed x = 0) added.
Proof.
  intros Hrun.
  destruct (api_status_run today db) as (added & r0 & Hrun0 & _ & Hall & _).
  rewrite Hrun in Hrun0. injection Hrun0 as _ ->.
  exists added. split; [reflexivity|].
  eapply Forall_impl; [|exact Hall]. now intros x (Hc & _).
Qed.

Lemma update_rescheduled (today : string) (db : table) :
  filter is_rescheduled
    (map (fun r => if has_date today r then set_completed r else r) db)
  = map (fun r => if has_date today r then set_completed r else r)
      (filter is_rescheduled db).
Proof.
  induction db as [|r db IH]; simpl; [reflexivity|].
  assert (E : is_rescheduled (if has_date today r then set_completed r else r)
              = is_rescheduled r) by now destruct (has_date today r).
  rewrite E. destruct (is_rescheduled r); simpl; now rewrite IH.
Qed.

(** With unique dates, the update completes at most one row. *)
Lemma update_completed_count (today : string) (db : table) :
  unique_dates db ->
  count_rows is_completed
    (map (fun r => if has_date today r then set_completed r else r) db)
  = count_rows is_completed db
    + match find (has_date today) db with
      | Some r => if is_completed r then 0 else 1
      | None => 0
      end.
Proof.
  unfold unique_dates, count_rows.
  induction db as [|r db IH]; simpl; intros Hnd; [reflexivity|].
  inversion Hnd as [|? ? Hnotin Hnd']; subst.
  destruct (has_date today r) eqn:Hd.
  - unfold has_date in Hd. apply String.eqb_eq in Hd.
    rewrite update_absent by (now rewrite <- Hd).
    change (is_completed (set_completed r)) with true.
    destruct (is_completed r); simpl List.length; lia.
  - specialize (IH Hnd').
    destruct (is_completed r); simpl List.length; lia.
Qed.

End Effects.

(** X8. [/api/status] never changes what [/api/stats] reports on completed
    workouts, neither their number nor the weekly counts, and it never lowers
    the number of rescheduled days. *)
Theorem api_status_keeps_completed (today : string) (db : table) :
  exists r db' st st',
    api_status today db = Returns r db' /\
    api_stats db = Returns st db /\
    api_stats db' = Returns st' db' /\
    totalCompleted st' = totalCompleted st /\
    weeklyConsistency st' = weeklyConsistency st /\
    totalRescheduled st <= totalRescheduled st'.
Proof.
  destruct (api_status_run today db) as (added & r & Hrun & _ & _ & _).
  destruct (api_status_added today db r _ Hrun) as (added' & Heq & Hall).
  apply app_inv_head in Heq. subst added'.
  do 4 eexists. split; [exact Hrun|].
  split; [reflexivity|]. split; [reflexivity|].
  cbn [totalCompleted weeklyConsistency totalRescheduled].
  rewrite (filter_completed_app db added Hall).
  split; [reflexivity|]. split; [reflexivity|].
  pose proof (length_filter_app is_rescheduled db added). lia.
Qed.

(** X9. With unique dates, [/api/complete] raises [totalCompleted] by one when
    there is a row for today that is not completed yet, and leaves it alone
    otherwise; it never changes [totalRescheduled]. *)
Theorem api_complete_counts (today : string) (db : table) :
  unique_dates db ->
  exists db' st st',
    api_complete today db = Returns true db' /\
    api_stats db = Returns st db /\
    api_stats db' = Returns st' db' /\
    totalRescheduled st' = totalRescheduled st /\
    totalCompleted st'
    = totalCompleted st
      + match find (has_date today) db with
        | Some r => if is_completed r then 0 else 1
        | None => 0
        end.
Proof.
  intros Hnd. do 3 eexists. split; [apply api_complete_run|].
  split; [reflexivity|]. split; [reflexivity|].
  cbn [totalCompleted totalRescheduled]. split.
  - now rewrite update_rescheduled, length_map.
  - apply (update_completed_count today db Hnd).
Qed.

Lemma api_complete_counts_witness :
  exists db' st st',
    api_complete "2024-01-11" [mkRow "2024-01-10" 1 1 0; mkRow "2024-01-11" 2 0 0]
    = Returns true db' /\
    api_stats [mkRow "2024-01-10" 1 1 0; mkRow "2024-01-11" 2 0 0]
    = Returns st [mkRow "2024-01-10" 1 1 0; mkRow "2024-01-11" 2 0 0] /\
    api_stats db' = Returns st' db' /\
    totalRescheduled st' = totalRescheduled st /\
    totalCompleted st' = totalCompleted st + 1.
Proof.
  apply (api_complete_counts "2024-01-11"
           [mkRow "2024-01-10" 1 1 0; mkRow "2024-01-11" 2 0 0]).
  repeat constructor; simpl; intuition discriminate.
Defined.

(** X10. Whatever the request and the clock, a stored row keeps its place,
    its date, its planned day and its rescheduled flag, and a completed row
    stays completed: the one change a row can see is [completed] set to 1. *)
Theorem serve_keeps_rows (req : request) (now : Z) (db db' : table) :
  serve req now db = Returns tt db' ->
  forall i r, nth_error db i = Some r ->
    exists r',
      nth_error db' i = Some r' /\
      date r' = date r /\ planned_day r' = planned_day r /\
      rescheduled r' = rescheduled r /\
      (completed r' = completed r \/ completed r' = 1).
Proof.
  intros Hrun i r Hi. destruct req; unfold serve, bind in Hrun.
  - destruct (api_status (today_at now) db) as [r0 db0| |] eqn:Hs;
      try discriminate.
    injection Hrun as <-.
    destruct (api_status_added _ _ _ _ Hs) as (added & -> & _).
    exists r. rewrite nth_error_app1 by (apply nth_error_Some; congruence).
    repeat split; auto.
  - rewrite api_complete_run in Hrun. injection Hrun as <-.
    rewrite nth_error_map, Hi. simpl.
    eexists. split; [reflexivity|].
    destruct (has_date (today_at now) r); simpl; repeat split; auto.
Qed.

Lemma serve_keeps_rows_witness :
  exists r',
    nth_error [mkRow "2024-01-11" 2 1 0] 0 = Some r' /\
    date r' = "2024-01-11"%string /\ planned_day r' = 2 /\
    rescheduled r' = 0 /\ (completed r' = 0 \/ completed r' = 1).
Proof.
  apply (serve_keeps_rows PostComplete (19733 * 86400000)
           [mkRow "2024-01-11" 2 0 0] [mkRow "2024-01-11" 2 1 0]
           eq_refl 0%nat (mkRow "2024-01-11" 2 0 0) eq_refl).
Defined.

(** X11. Completing twice is completing once: on the table [/api/complete]
    left, [/api/complete] for the same day changes nothing. *)
Theorem api_complete_idempotent (today : string) (db : table) :
  exists db',
    api_complete today db = Returns true db' /\
    api_complete today db' = Returns true db'.
Proof.
  eexists. split; [apply api_complete_run|].
  rewrite api_complete_run. f_equal.
  rewrite map_map. apply map_ext. intros r.
  destruct (has_date today r) eqn:Hd; [|now rewrite Hd].
  unfold has_date in *. cbn [set_completed date]. rewrite Hd.
  reflexivity.
Qed.

(** ** Parsing a date *)
Module ParseFacts.
Import JSDate JSDateFacts.

Lemma digit_val_inv (c : ascii) (x : Z) :
  digit_val c = Some x -> 0 <= x <= 9 /\ digit x = c.
Proof.
  unfold digit_val, digit.
  destruct (Z.leb_spec 48 (Z.of_N (N_of_ascii c))); [|discriminate].
  destruct (Z.leb_spec (Z.of_N (N_of_ascii c)) 57); [|discriminate].
  cbn [andb]. intros [= <-]. split; [lia|].
  replace (48 + (Z.of_N (N_of_ascii c) - 48)) with (Z.of_N (N_of_ascii c)) by ring.
  rewrite N2Z.id. apply ascii_N_embedding.
Qed.

Lemma num2_inv (a b : ascii) (n : Z) :
  num2 a b = Some n ->
  0 <= n <= 99 /\ digit (n / 10) = a /\ digit (n mod 10) = b.
Proof.
  unfold num2.
  destruct (digit_val a) as [x|] eqn:Ha; [|discriminate].
  destruct (digit_val b) as [y|] eqn:Hb; [|discriminate].
  intros H. assert (Hn : n = 10 * x + y) by congruence. subst n. clear H.
  apply digit_val_inv in Ha as [Hx <-], Hb as [Hy <-].
  split; [lia|].
  replace ((10 * x + y) / 10) with x by (Z.div_mod_to_equations; lia).
  replace ((10 * x + y) mod 10) with y by (Z.div_mod_to_equations; lia).
  split; reflexivity.
Qed.

(** The month whose days include day [x] of the year is the month
    [month_of] finds. *)
Lemma month_of_unique (x L mn : Z) :
  0 <= L <= 1 -> 0 <= mn <= 11 ->
  month_start mn L <= x < month_start (mn + 1) L ->
  month_of x L = mn.
Proof.
  intros HL Hmn.
  destruct (month_start_table L)
    as (H0 & H1 & H2 & H3 & H4 & H5 & H6 & H7 & H8 & H9 & H10 & H11 & H12).
  assert (Hc : mn = 0 \/ mn = 1 \/ mn = 2 \/ mn = 3 \/ mn = 4 \/ mn = 5 \/
               mn = 6 \/ mn = 7 \/ mn = 8 \/ mn = 9 \/ mn = 10 \/ mn = 11)
    by lia.
  repeat (destruct Hc as [-> | Hc]); try subst mn;
    match goal with
    | |- month_start ?a L <= x < month_start (?a + 1) L -> _ =>
        let v := eval vm_compute in (a + 1) in change (a + 1) with v
    end;
    intros Hx; unfold month_of;
    repeat match goal with
      | |- context [?a <? ?b] => destruct (Z.ltb_spec a b)
      end; lia.
Qed.

(** The fields of the day of a date are the date. *)
Lemma civil_of_MakeDay (y mn dd : Z) :
  0 <= mn <= 11 -> 1 <= dd <= DaysInMonth y mn ->
  YearFromDay (MakeDay y mn dd) = y /\
  MonthFromDay (MakeDay y mn dd) = mn /\
  DateFromDay (MakeDay y mn dd) = dd.
Proof.
  intros Hmn Hdd.
  assert (Hy : YearFromDay (MakeDay y mn dd) = y)
    by (apply YearFromDay_unique; now apply MakeDay_in_year).
  assert (Hm : MonthFromDay (MakeDay y mn dd) = mn).
  { unfold MonthFromDay, DayWithinYear. rewrite Hy.
    apply month_of_unique; [apply LeapDays_range|assumption|].
    unfold MakeDay, DaysInMonth in *. lia. }
  split; [assumption|]. split; [assumption|].
  unfold DateFromDay, DayWithinYear. rewrite Hm, Hy. unfold MakeDay. lia.
Qed.

(** A string that parses is the rendering of the day it parses to, a day
    whose year has four digits. *)
Lemma parse_sound (s : string) (d : Z) :
  parse s = Some d -> in_range d /\ toISODate d = s.
Proof.
  intros H.
  destruct s as [|y1 [|y2 [|y3 [|y4 [|c1 [|m1 [|m2 [|c2 [|d1 [|d2 [|]]]]]]]]]]];
    try discriminate H;
    destruct c1 as [[] [] [] [] [] [] [] []]; try discriminate H;
    destruct c2 as [[] [] [] [] [] [] [] []]; try discriminate H.
  cbv beta iota delta [parse] in H.
  destruct (num2 y1 y2) as [yh|] eqn:Hyh; [|discriminate].
  destruct (num2 y3 y4) as [yl|] eqn:Hyl; [|discriminate].
  destruct (num2 m1 m2) as [m|] eqn:Hm; [|discriminate].
  destruct (num2 d1 d2) as [dd|] eqn:Hd; [|discriminate].
  cbv zeta in H.
  destruct (Z.leb_spec 1 m); [|discriminate].
  destruct (Z.leb_spec m 12); [|discriminate].
  destruct (Z.leb_spec 1 dd); [|discriminate].
  destruct (Z.leb_spec dd (DaysInMonth (100 * yh + yl) (m - 1))); [|discriminate].
  cbn [andb] in H. assert (Hday : d = MakeDay (100 * yh + yl) (m - 1) dd)
    by congruence. clear H. subst d.
  apply num2_inv in Hyh as (Hyh & <- & <-), Hyl as (Hyl & <- & <-),
    Hm as (Hm & <- & <-), Hd as (Hd & <- & <-).
  set (y := 100 * yh + yl) in *.
  assert (Hy : 0 <= y <= 9999) by (subst y; lia).
  destruct (civil_of_MakeDay y (m - 1) dd) as (HY & HM & HD); [lia|lia|].
  split.
  - pose proof (MakeDay_in_year y (m - 1) dd ltac:(lia) ltac:(lia)) as Hin.
    pose proof (DayFromYear_mono 0 y ltac:(lia)).
    pose proof (DayFromYear_mono (y + 1) 10000 ltac:(lia)).
    change (DayFromYear 0) with (-719528) in *.
    change (DayFromYear 10000) with 2932897 in *.
    unfold in_range, MIN_DAY, MAX_DAY. lia.
  - unfold toISODate. rewrite HY, HM, HD.
    unfold fmt_date. rewrite fmt_year_four by assumption.
    unfold pad4. replace (m - 1 + 1) with m by ring.
    replace (y / 100) with yh by (subst y; Z.div_mod_to_equations; lia).
    replace (y mod 100) with yl by (subst y; Z.div_mod_to_equations; lia).
    reflexivity.
Qed.

End ParseFacts.

(** ** Filling the gap, whatever the table *)
Section Coverage.

Import JSDate JSDateFacts ParseFacts.

(** With fuel for every day from [cur] to [t], the loop leaves a row for
    each of these days and loses no date. *)
Lemma backfill_covers (fuel : nat) :
  forall cur t db,
    (Z.to_nat (t - cur) <= fuel)%nat ->
    exists db',
      backfill fuel cur t db = Returns tt db' /\
      (forall x, In x (map date db) -> In x (map date db')) /\
      (forall c, cur <= c < t -> In (toISODate c) (map date db')).
Proof.
  induction fuel as [|fuel IH]; intros cur t db Hfuel.
  - exists db. rewrite backfill_done by lia. repeat split; trivial. lia.
  - destruct (Z.le_gt_cases t cur) as [Hle|Hlt].
    + exists db. rewrite backfill_done by lia. repeat split; trivial. lia.
    + rewrite backfill_step by lia.
      destruct (find (has_date (toISODate cur)) db) as [x|] eqn:Hf.
      * destruct (IH (cur + 1) t db ltac:(lia)) as (db' & Hrun & Hkeep & Hcov).
        exists db'. repeat split; trivial.
        intros c Hc. destruct (Z.eq_dec c cur) as [->|Hne].
        -- apply Hkeep. apply find_has_date_Some in Hf as [Hin <-].
           now apply in_map.
        -- apply Hcov. lia.
      * destruct (IH (cur + 1) t
                    (db ++ [mkRow (toISODate cur) (next_day db) 0 1])
                    ltac:(lia)) as (db' & Hrun & Hkeep & Hcov).
        exists db'. repeat split; trivial.
        -- intros x Hx. apply Hkeep. rewrite map_app, in_app_iff. now left.
        -- intros c Hc. destruct (Z.eq_dec c cur) as [->|Hne].
           ++ apply Hkeep. rewrite map_app, in_app_iff. right. now left.
           ++ apply Hcov. lia.
Qed.

(** The handler, step by step. *)
Lemma api_status_phases (today : string) (db : table) :
  api_status today db =
  match
    match latest db with
    | Some e =>
        if String.ltb (date e) today then fill_gap (date e) today db
        else Returns tt db
    | None => Returns tt db
    end
  with
  | Returns _ db1 =>
      match find (has_date today) db1 with
      | Some r => Returns r db1
      | None =>
          Returns (mkRow today (next_day db1) 0 0)
            (db1 ++ [mkRow today (next_day db1) 0 0])
      end
  | Throws e => Throws e
  | OutOfFuel => OutOfFuel
  end.
Proof.
  unfold api_status. unfold bind at 1. unfold select_last_entry.
  unfold bind at 1.
  assert (E : (match latest db with
               | Some e =>
                   if String.ltb (date e) today
                   then fill_gap (date e) today else ret tt
               | None => ret tt
               end) db
              = match latest db with
                | Some e =>
                    if String.ltb (date e) today
                    then fill_gap (date e) today db else Returns tt db
                | None => Returns tt db
                end).
  { destruct (latest db) as [e|]; [|reflexivity].
    now destruct (String.ltb (date e) today). }
  rewrite E.
  destruct (match latest db with
            | Some e =>
                if String.ltb (date e) today
                then fill_gap (date e) today db else Returns tt db
            | None => Returns tt db
            end) as [[] db1| |]; try reflexivity.
  unfold bind at 1. unfold select_by_date.
  destruct (find (has_date today) db1) as [r|] eqn:Hf; [reflexivity|].
  unfold bind. rewrite getNextWorkoutDay_run. unfold insert_planned.
  rewrite insert_row_fresh; [reflexivity|]. now apply find_has_date_None.
Qed.

End Coverage.

(** On the days the loop steps through, one after the other: when the date
    of the last entry and today are calendar dates, the table the handler
    returns with has a row for every day from the one to the other. *)
Lemma api_status_covers (today : string) (db : table) (e : row) (d t : Z) :
  last_entry db e ->
  JSDate.parse (date e) = Some d ->
  JSDate.parse today = Some t ->
  exists r db',
    api_status today db = Returns r db' /\
    date r = today /\
    forall c, d <= c <= t -> In (JSDate.toISODate c) (map date db').
Proof.
  intros [Hin Hmax] Hd Ht.
  destruct (ParseFacts.parse_sound _ _ Hd) as [Hdr Hds].
  destruct (ParseFacts.parse_sound _ _ Ht) as [Htr Hts].
  destruct (latest db) as [e'|] eqn:Hl;
    [|apply latest_None in Hl; subst db; destruct Hin].
  apply latest_spec in Hl as Hl'. destruct Hl' as [Hin' Hmax'].
  assert (He' : date e' = date e)
    by (apply ltb_antisym; [apply Hmax', Hin|apply Hmax, Hin']).
  assert (Hphase : exists db1,
    (if String.ltb (date e') today then fill_gap (date e') today db
     else Returns tt db) = Returns tt db1 /\
    (forall x, In x (map date db) -> In x (map date db1)) /\
    (forall c, d < c < t -> In (JSDate.toISODate c) (map date db1))).
  { rewrite He'. destruct (String.ltb (date e) today) eqn:Hlt.
    - unfold fill_gap. rewrite Hd, Ht.
      destruct (backfill_covers (Z.to_nat (t - (d + 1))) (d + 1) t db (le_n _))
        as (db1 & Hrun & Hkeep & Hcov).
      exists db1. repeat split; trivial. intros c Hc. apply Hcov. lia.
    - exists db. repeat split; trivial. intros c Hc. exfalso.
      rewrite <- Hds, <- Hts in Hlt.
      rewrite (JSDateFacts.ltb_toISODate d t) in Hlt by (trivial; lia).
      discriminate. }
  destruct Hphase as (db1 & Hrun & Hkeep & Hcov).
  rewrite api_status_phases, Hl, Hrun.
  assert (Hlast : In (JSDate.toISODate d) (map date db1)).
  { apply Hkeep. rewrite Hds. now apply in_map. }
  destruct (find (has_date today) db1) as [r|] eqn:Hf.
  - apply find_has_date_Some in Hf as [Hr Hdate].
    exists r, db1. repeat split; trivial.
    intros c Hc. destruct (Z.eq_dec c d) as [->|Hcd]; [assumption|].
    destruct (Z.eq_dec c t) as [->|Hct]; [|apply Hcov; lia].
    rewrite Hts, <- Hdate. now apply in_map.
  - eexists _, _. split; [reflexivity|]. split; [reflexivity|].
    intros c Hc. rewrite map_app, in_app_iff.
    destruct (Z.eq_dec c d) as [->|Hcd]; [now left|].
    destruct (Z.eq_dec c t) as [->|Hct]; [|left; apply Hcov; lia].
    right. simpl. now left.
Qed.

(** ** The tables the server comes to hold *)
Section Reachable.

Import JSDate JSDateFacts.

Lemma day_seq_length (n : nat) : forall a, List.length (day_seq a n) = n.
Proof. induction n as [|n IH]; intros a; simpl; [reflexivity|now rewrite IH]. Qed.

Lemma day_seq_app (n m : nat) :
  forall a, day_seq a (n + m) = day_seq a n ++ day_seq (a + Z.of_nat n) m.
Proof.
  induction n as [|n IH]; intros a.
  - simpl. now replace (a + 0) with a by ring.
  - cbn [Nat.add day_seq app]. rewrite IH.
    now replace (a + 1 + Z.of_nat n) with (a + Z.of_nat (S n)) by lia.
Qed.

Lemma day_seq_snoc (n : nat) (a : Z) :
  day_seq a (S n) = day_seq a n ++ [a + Z.of_nat n].
Proof. rewrite <- Nat.add_1_r. apply day_seq_app. Qed.

Lemma day_seq_In (n : nat) :
  forall a c, In c (day_seq a n) <-> a <= c < a + Z.of_nat n.
Proof.
  induction n as [|n IH]; intros a c; simpl; [lia|].
  rewrite IH. lia.
Qed.

Lemma consecutive_In (t0 : Z) (db : table) (r : row) :
  consecutive t0 db -> In r db ->
  exists c, t0 <= c < t0 + Z.of_nat (List.length db) /\ date r = toISODate c.
Proof.
  unfold consecutive. intros Hc Hin.
  apply (in_map date) in Hin. rewrite Hc in Hin.
  apply in_map_iff in Hin as (c & Hd & Hin).
  apply day_seq_In in Hin. eauto.
Qed.

Lemma consecutive_snoc (t0 : Z) (init : table) (e : row) :
  consecutive t0 (init ++ [e]) ->
  consecutive t0 init /\ date e = toISODate (t0 + Z.of_nat (List.length init)).
Proof.
  unfold consecutive. rewrite map_app, length_app. simpl.
  rewrite Nat.add_1_r, day_seq_snoc, map_app. simpl. intros H.
  apply app_inj_tail in H as [H1 H2]. auto.
Qed.

Lemma consecutive_app (t0 : Z) (db more : table) :
  consecutive t0 db ->
  consecutive (t0 + Z.of_nat (List.length db)) more ->
  consecutive t0 (db ++ more).
Proof.
  unfold consecutive. intros H1 H2.
  rewrite map_app, length_app, day_seq_app, map_app. now rewrite H1, H2.
Qed.

(** Among days in range, the rendering tells the day. *)
Lemma toISODate_inj (a b : Z) :
  in_range a -> in_range b -> toISODate a = toISODate b -> a = b.
Proof.
  intros Ha Hb Heq. pose proof (compare_toISODate a b Ha Hb) as Hc.
  rewrite Heq, string_compare_refl in Hc. symmetry in Hc.
  now apply Z.compare_eq_iff.
Qed.

Lemma consecutive_ascending (n : nat) :
  forall t0 db,
    List.length db = n -> consecutive t0 db ->
    MIN_DAY <= t0 -> t0 + Z.of_nat n <= MAX_DAY + 1 ->
    ascending db.
Proof.
  unfold ascending.
  induction n as [|n IH]; intros t0 db Hlen Hc H0 Hn.
  - destruct db; [constructor|discriminate].
  - destruct db as [|r db]; [discriminate|].
    injection Hlen as Hlen. unfold consecutive in Hc. simpl in Hc.
    injection Hc as Hr Hc.
    constructor.
    + apply (IH (t0 + 1)); trivial; lia.
    + apply Forall_forall. intros x Hx.
      destruct (consecutive_In (t0 + 1) db x Hc Hx) as (c & Hcr & ->).
      rewrite Hr. apply ltb_toISODate; unfold in_range; lia.
Qed.

Lemma ascending_filter (f : row -> bool) (db : table) :
  ascending db -> ascending (filter f db).
Proof.
  unfold ascending. induction 1 as [|r db Hs IH Hall]; simpl; [constructor|].
  destruct (f r); [|assumption]. constructor; [assumption|].
  apply Forall_forall. intros x Hx. apply filter_In in Hx as [Hx _].
  rewrite Forall_forall in Hall. auto.
Qed.

(** In ascending order, the last row is the one of greatest date. *)
Lemma latest_ascending_snoc (init : table) (m : row) :
  ascending (init ++ [m]) -> latest (init ++ [m]) = Some m.
Proof.
  unfold ascending. induction init as [|r init IH]; simpl; intros H;
    [reflexivity|].
  inversion H as [|? ? Hs Hall]; subst.
  rewrite (IH Hs). rewrite Forall_forall in Hall.
  now rewrite (Hall m) by (apply in_app_iff; right; now left).
Qed.

Lemma cycle_snoc (k : nat) : cycle (S k) = cycle k ++ [Z.of_nat k mod 5 + 1].
Proof. unfold cycle. rewrite seq_S, map_app. reflexivity. Qed.

Lemma cycle_length (k : nat) : List.length (cycle k) = k.
Proof. unfold cycle. now rewrite length_map, length_seq. Qed.

(** With the completed rows in ascending order and their planned days
    following the rotation, the next day is the one the rotation gives
    after them. *)
Lemma next_day_cycle (db : table) :
  ascending db ->
  map planned_day (filter is_completed db)
  = cycle (List.length (filter is_completed db)) ->
  next_day db = Z.of_nat (List.length (filter is_completed db)) mod 5 + 1.
Proof.
  intros Hasc Hcyc. unfold next_day.
  apply (ascending_filter is_completed) in Hasc.
  destruct (filter is_completed db) as [|x l] eqn:Hl using rev_ind;
    [reflexivity|].
  clear IHl. rewrite latest_ascending_snoc by assumption.
  rewrite length_app in *. simpl List.length in *. rewrite Nat.add_1_r in *.
  rewrite map_app, cycle_snoc in Hcyc. simpl in Hcyc.
  apply app_inj_tail in Hcyc as [_ ->].
  rewrite Z.rem_mod_nonneg by (Z.div_mod_to_equations; lia).
  rewrite Nat2Z.inj_succ. Z.div_mod_to_equations. lia.
Qed.

Lemma set_completed_id (r : row) : completed r = 1 -> set_completed r = r.
Proof. destruct r. simpl. intros ->. reflexivity. Qed.

Lemma day_mono (now now' : Z) : now <= now' -> now / 86400000 <= now' / 86400000.
Proof. intros H. apply Z.div_le_mono; lia. Qed.

End Reachable.

(** ** The invariant of the running server *)
Section Invariant.

Import JSDate JSDateFacts.

Lemma find_present (d : string) (db : table) :
  In d (map date db) -> exists x, find (has_date d) db = Some x.
Proof.
  intros Hin. destruct (find (has_date d) db) as [x|] eqn:Hf; [eauto|].
  apply find_has_date_None in Hf. contradiction.
Qed.

Lemma snoc_inv {A : Type} (l init : list A) (x r : A) :
  l ++ [x] = init ++ [r] -> r = x.
Proof. intros H. apply app_inj_tail in H as [_ H]. congruence. Qed.

(** The last row of a table of consecutive days in range is its last
    entry. *)
Lemma consecutive_last_entry (t0 : Z) (init : table) (e : row) :
  consecutive t0 (init ++ [e]) ->
  in_range t0 -> in_range (t0 + Z.of_nat (List.length init)) ->
  last_entry (init ++ [e]) e.
Proof.
  intros Hc H0 Hb. split; [apply in_app_iff; right; now left|].
  intros r' Hr'.
  destruct (consecutive_In _ _ _ Hc Hr') as (c & Hcr & ->).
  destruct (consecutive_snoc _ _ _ Hc) as [_ ->].
  rewrite length_app in Hcr. simpl in Hcr. unfold in_range in *.
  destruct (Z.eq_dec c (t0 + Z.of_nat (List.length init))) as [->|Hne].
  - apply ltb_irrefl.
  - apply ltb_asym. apply ltb_toISODate; unfold in_range; lia.
Qed.

Lemma run_inv_empty (day : Z) : in_range day -> run_inv day [].
Proof.
  intros Hday. split; [assumption|]. split.
  - exists day. split; [assumption|]. split; [simpl; lia|reflexivity].
  - split; [reflexivity|]. split.
    + intros init r H. now destruct init.
    + intros r [].
Qed.

Lemma run_inv_later (day day' : Z) (db : table) :
  run_inv day db -> day <= day' -> in_range day' -> run_inv day' db.
Proof.
  intros (Hday & (t0 & Ht0 & Hlen & Hcons) & Hrest) Hle Hday'.
  split; [assumption|]. split; [|assumption].
  exists t0. split; [assumption|]. split; [lia|assumption].
Qed.

(** [/api/status] keeps the invariant. *)
Lemma run_inv_status (day day' : Z) (db : table) (r : row) (db' : table) :
  run_inv day db -> day <= day' -> in_range day' ->
  api_status (toISODate day') db = Returns r db' ->
  run_inv day' db'.
Proof.
  intros Hinv Hle Hday' Hrun.
  destruct db as [|e init _] using rev_ind.
  - rewrite api_status_empty in Hrun. injection Hrun as _ <-.
    split; [assumption|]. split.
    + exists day'. split; [assumption|]. split; [simpl; lia|reflexivity].
    + split; [reflexivity|]. split.
      * intros init r0 H. apply (snoc_inv []) in H. subst r0.
        split; [reflexivity|]. right. reflexivity.
      * intros r0 [<-|[]]. discriminate.
  - pose proof Hinv as (Hday & (t0 & Ht0 & Hlen & Hcons) & Hcyc & Hlast & Hres).
    rewrite length_app in Hlen. simpl in Hlen.
    set (b := t0 + Z.of_nat (List.length init)) in *.
    assert (Hb : in_range b) by (unfold in_range in *; lia).
    destruct (consecutive_snoc _ _ _ Hcons) as [Hinit He].
    fold b in He.
    pose proof (consecutive_last_entry t0 init e Hcons Ht0 Hb) as Hentry.
    destruct (Z.eq_dec b day') as [Hbd|Hbd].
    + (* today's row is there *)
      destruct (find_present (toISODate day') (init ++ [e])) as [x Hx].
      { rewrite <- Hbd, <- He. apply in_map, in_app_iff. right. now left. }
      rewrite (api_status_existing _ _ _ Hx) in Hrun. injection Hrun as _ <-.
      now apply (run_inv_later day).
    + (* days are missing *)
      set (k := Z.to_nat (day' - b - 1)).
      assert (Hk : day' = b + 1 + Z.of_nat k) by (unfold in_range in *; lia).
      rewrite (api_status_gap (toISODate day') (init ++ [e]) e b k) in Hrun;
        trivial; try (rewrite <- Hk; trivial).
      injection Hrun as _ <-.
      set (db := init ++ [e]) in *.
      set (p := next_day db).
      set (gaps := map (gap_row p) (day_seq (b + 1) k)).
      set (trow := mkRow (toISODate day') p 0 0).
      assert (Hgaps : Forall (fun x => completed x = 0) (gaps ++ [trow])).
      { apply Forall_app. split; [|now repeat constructor].
        apply Forall_forall. intros x Hx.
        apply in_map_iff in Hx as (c & <- & _). reflexivity. }
      split; [assumption|]. split; [|split; [|split]].
      * exists t0. split; [assumption|]. split.
        -- rewrite !length_app. unfold gaps.
           rewrite length_map, day_seq_length. subst db.
           rewrite length_app. simpl. lia.
        -- apply consecutive_app; [assumption|].
           unfold consecutive. subst db. rewrite length_app. simpl.
           replace (t0 + Z.of_nat (List.length init + 1)) with (b + 1) by lia.
           rewrite length_app. unfold gaps.
           rewrite length_map, day_seq_length. simpl.
           rewrite Nat.add_1_r, day_seq_snoc, !map_app, map_map. simpl.
           now rewrite Hk.
      * now rewrite (filter_completed_app db _ Hgaps).
      * intros init' r0 H. rewrite app_assoc in H.
        apply snoc_inv in H. subst r0.
        split; [reflexivity|]. right. cbn [planned_day trow].
        symmetry. apply next_day_app.
        eapply Forall_impl; [|exact Hgaps].
        intros x Hx. rewrite Hx. discriminate.
      * intros r0 Hr0 Hresch.
        apply in_app_iff in Hr0 as [Hr0|Hr0]; [now apply Hres|].
        rewrite Forall_forall in Hgaps. now apply Hgaps.
Qed.

(** [/api/complete] keeps the invariant. *)
Lemma run_inv_complete (day day' : Z) (db : table) (db' : table) :
  run_inv day db -> day <= day' -> in_range day' ->
  api_complete (toISODate day') db = Returns true db' ->
  run_inv day' db'.
Proof.
  intros Hinv Hle Hday' Hrun.
  rewrite api_complete_run in Hrun. injection Hrun as <-.
  destruct (in_dec string_dec (toISODate day') (map date db)) as [Hin|Hnot];
    [|rewrite update_absent by assumption; now apply (run_inv_later day)].
  destruct db as [|e init _] using rev_ind; [destruct Hin|].
  pose proof Hinv as (Hday & (t0 & Ht0 & Hlen & Hcons) & Hcyc & Hlast & Hres).
  rewrite length_app in Hlen. simpl in Hlen.
  set (b := t0 + Z.of_nat (List.length init)) in *.
  assert (Hb : in_range b) by (unfold in_range in *; lia).
  destruct (consecutive_snoc _ _ _ Hcons) as [Hinit He]. fold b in He.
  (* the row dated today is the last one *)
  assert (Hbd : day' = b).
  { apply in_map_iff in Hin as (r0 & Hd0 & Hr0).
    destruct (consecutive_In _ _ _ Hcons Hr0) as (c & Hc & Hdc).
    rewrite length_app in Hc. simpl in Hc.
    assert (c = day')
      by (apply toISODate_inj; trivial; [unfold in_range in *; lia|congruence]).
    unfold in_range in *. lia. }
  subst day'.
  assert (Hfresh : ~ In (toISODate b) (map date init)).
  { intros Hi. apply in_map_iff in Hi as (r0 & Hd0 & Hr0).
    destruct (consecutive_In _ _ _ Hinit Hr0) as (c & Hc & Hdc).
    assert (c = b)
      by (apply toISODate_inj; trivial; [unfold in_range in *; lia|congruence]).
    lia. }
  rewrite map_app, update_absent by assumption. cbn [map].
  assert (Hhas : has_date (toISODate b) e = true)
    by (unfold has_date; rewrite He; apply String.eqb_refl).
  rewrite Hhas.
  destruct (Z.eq_dec (completed e) 1) as [Hc|Hc];
    [rewrite set_completed_id by assumption; now apply (run_inv_later day)|].
  destruct (Hlast init e eq_refl) as [Hre [Hce|Hpe]]; [contradiction|].
  assert (Hfe : is_completed e = false) by (now apply Z.eqb_neq).
  assert (Hfilter : filter is_completed (init ++ [e]) = filter is_completed init).
  { rewrite filter_app. simpl. rewrite Hfe. apply app_nil_r. }
  assert (Hnext : next_day (init ++ [e])
                  = Z.of_nat (List.length (filter is_completed init)) mod 5 + 1).
  { rewrite <- Hfilter. apply next_day_cycle; [|assumption].
    apply (consecutive_ascending _ t0 _ eq_refl Hcons).
    - unfold in_range in *. lia.
    - rewrite length_app, Nat2Z.inj_add. simpl List.length.
      unfold in_range, b in *. lia. }
  rewrite Hfilter in Hcyc.
  split; [assumption|]. split; [|split; [|split]].
  - exists t0. split; [assumption|]. split.
    + rewrite length_app. simpl. fold b. lia.
    + unfold consecutive in *.
      rewrite map_app, length_app in *. exact Hcons.
  - rewrite filter_app. cbn [filter]. change (is_completed (set_completed e)) with true.
    rewrite map_app, length_app. simpl.
    rewrite Nat.add_1_r, cycle_snoc, Hcyc. f_equal. f_equal.
    now rewrite <- Hnext.
  - intros init' r0 H. apply snoc_inv in H. subst r0.
    split; [exact Hre|]. left. reflexivity.
  - intros r0 Hr0 Hresch. apply in_app_iff in Hr0 as [Hr0|[<-|[]]].
    + apply Hres; [apply in_app_iff; now left|assumption].
    + simpl in Hresch. congruence.
Qed.

(** Every table the server comes to hold satisfies the invariant. *)
Lemma reachable_inv (now : Z) (db : table) :
  reachable now db -> run_inv (now / 86400000) db.
Proof.
  induction 1 as [now Hday|now now' db db' req Hreach IH Hle Hday' Hrun].
  - now apply run_inv_empty.
  - apply day_mono in Hle. destruct req; unfold serve, bind, today_at in Hrun.
    + destruct (api_status (toISODate (now' / 86400000)) db)
        as [r db0| |] eqn:Hs; try discriminate.
      injection Hrun as <-. eapply run_inv_status; eassumption.
    + rewrite api_complete_run in Hrun. injection Hrun as <-.
      eapply run_inv_complete; try eassumption. apply api_complete_run.
Qed.

(** A table the server reaches on 2024-01-10, with a completed and a
    missed day behind it. *)
Lemma reachable_sample :
  reachable (19732 * 86400000 + 1)
    [mkRow "2024-01-08" 1 1 0; mkRow "2024-01-09" 2 0 1; mkRow "2024-01-10" 2 0 0].
Proof.
  eapply (reach_serve (19730 * 86400000 + 2) _ [mkRow "2024-01-08" 1 1 0] _ GetStatus).
  - eapply (reach_serve (19730 * 86400000 + 1) _ [mkRow "2024-01-08" 1 0 0] _ PostComplete).
    + eapply (reach_serve (19730 * 86400000) _ [] _ GetStatus).
      * apply (reach_start (19730 * 86400000)). vm_compute. intuition discriminate.
      * lia.
      * vm_compute. intuition discriminate.
      * reflexivity.
    + lia.
    + vm_compute. intuition discriminate.
    + reflexivity.
  - lia.
  - vm_compute. intuition discriminate.
  - reflexivity.
Defined.

End Invariant.

(** ** What holds of every table the server comes to hold *)
Section ReachableFacts.

Import JSDate JSDateFacts.

Lemma ascending_unique (db : table) : ascending db -> unique_dates db.
Proof.
  unfold ascending, unique_dates.
  induction 1 as [|r db Hs IH Hall]; simpl; constructor; [|assumption].
  intros Hin. apply in_map_iff in Hin as (x & Hd & Hx).
  rewrite Forall_forall in Hall. specialize (Hall x Hx).
  rewrite Hd, ltb_irrefl in Hall. discriminate.
Qed.

Lemma ascending_leb (db : table) :
  ascending db ->
  StronglySorted (fun a b => String.leb (date a) (date b) = true) db.
Proof.
  unfold ascending. induction 1 as [|r db Hs IH Hall]; constructor; trivial.
  eapply Forall_impl; [|exact Hall]. intros x Hx. cbv beta in *.
  rewrite leb_ltb, negb_true_iff. now apply ltb_asym.
Qed.

Lemma run_inv_ascending (day : Z) (db : table) : run_inv day db -> ascending db.
Proof.
  intros (Hday & (t0 & Ht0 & Hlen & Hcons) & _).
  apply (consecutive_ascending _ t0 _ eq_refl Hcons);
    unfold in_range in *; lia.
Qed.

(** Every planned day of a table the server comes to hold is in 1..5. *)
Lemma reachable_planned_ok (now : Z) (db : table) :
  reachable now db -> planned_ok db.
Proof.
  induction 1 as [now Hday|now now' db db' req Hreach IH Hle Hday' Hrun];
    [constructor|].
  destruct req; unfold serve, bind in Hrun.
  - destruct (api_status_run (today_at now') db)
      as (added & r & Hs & _ & Hall & _).
    rewrite Hs in Hrun. injection Hrun as <-.
    apply Forall_app. split; [assumption|].
    eapply Forall_impl; [|exact Hall].
    intros x (_ & Hp & _). rewrite Hp. now apply next_day_range.
  - rewrite api_complete_run in Hrun. injection Hrun as <-.
    unfold planned_ok in *. rewrite Forall_forall in *.
    intros x Hin. apply in_map_iff in Hin as (r & <- & Hin).
    specialize (IH r Hin). now destruct (has_date (today_at now') r).
Qed.

Lemma cycle_nth (k i : nat) (p : Z) :
  nth_error (cycle k) i = Some p -> p = Z.of_nat i mod 5 + 1.
Proof.
  induction k as [|k IH]; [now destruct i|].
  rewrite cycle_snoc. intros H.
  destruct (Nat.lt_ge_cases i k) as [Hlt|Hge].
  - rewrite nth_error_app1 in H by (now rewrite cycle_length). auto.
  - rewrite nth_error_app2 in H by (now rewrite cycle_length).
    rewrite cycle_length in H.
    destruct (i - k)%nat as [|j] eqn:Hj; [|now destruct j].
    simpl in H. injection H as <-. now replace i with k by lia.
Qed.

End ReachableFacts.

(** With the loop stepping through the days one after the other, the rows
    of a table the server comes to hold are dated with consecutive days, in
    the order of the table, none after the day of the clock. *)
Lemma reachable_days (now : Z) (db : table) :
  reachable now db ->
  (exists t0,
     t0 + Z.of_nat (List.length db) <= now / 86400000 + 1 /\
     map date db = map JSDate.toISODate (day_seq t0 (List.length db))) /\
  unique_dates db /\
  api_calendar db = Returns db db.
Proof.
  intros Hreach. apply reachable_inv in Hreach as Hinv.
  pose proof (run_inv_ascending _ _ Hinv) as Hasc.
  destruct Hinv as (_ & (t0 & _ & Hlen & Hcons) & _).
  split; [exists t0; split; assumption|].
  split; [now apply ascending_unique|].
  unfold api_calendar.
  rewrite order_by_of_sorted; [reflexivity|now apply ascending_leb].
Qed.

(** X14. In every table the server comes to hold, the planned days lie in
    1..5 and the completed workouts follow the rotation: in the order of the
    table, which is the order of their dates, the first completed row is
    planned for day 1, and the one after a completed row planned for day [p]
    is planned for day [(p mod 5) + 1]. *)
Theorem reachable_rotation (now : Z) (db : table) :
  reachable now db ->
  planned_ok db /\
  forall i r, nth_error (filter is_completed db) i = Some r ->
    planned_day r = Z.of_nat i mod 5 + 1.
Proof.
  intros Hreach. split; [now apply (reachable_planned_ok now)|].
  apply reachable_inv in Hreach as (_ & _ & Hcyc & _).
  intros i r Hi.
  apply (map_nth_error planned_day) in Hi. rewrite Hcyc in Hi.
  now apply cycle_nth in Hi.
Qed.

Lemma reachable_rotation_witness :
  planned_day (mkRow "2024-01-08" 1 1 0) = Z.of_nat 0 mod 5 + 1.
Proof.
  exact (proj2 (reachable_rotation _ _ reachable_sample)
           0%nat (mkRow "2024-01-08" 1 1 0) eq_refl).
Defined.

(** X15. A backfilled day is never completed: in every table the server
    comes to hold, a row with [rescheduled = 1] has [completed = 0]. *)
Theorem reachable_rescheduled_open (now : Z) (db : table) (r : row) :
  reachable now db -> In r db -> rescheduled r = 1 -> completed r = 0.
Proof.
  intros Hreach. apply reachable_inv in Hreach as (_ & _ & _ & _ & Hres).
  apply Hres.
Qed.

Lemma reachable_rescheduled_open_witness :
  completed (mkRow "2024-01-09" 2 0 1) = 0.
Proof.
  apply (reachable_rescheduled_open _ _ (mkRow "2024-01-09" 2 0 1)
           reachable_sample); [simpl; auto|reflexivity].
Defined.

(** X16. On a table the server has come to hold, the first [/api/status] of
    a later day returns a fresh row for that day, not completed and not
    rescheduled; it is planned for the day after the planned day of the last
    row when that row is completed, and for the planned day of the last row
    again when it is not; the rows backfilled on the way are planned for the
    same day. *)
Theorem next_workout (now now' : Z) (init : table) (e r : row) (db' : table) :
  reachable now (init ++ [e]) ->
  now <= now' -> JSDate.in_range (now' / 86400000) ->
  date e <> today_at now' ->
  api_status (today_at now') (init ++ [e]) = Returns r db' ->
  date r = today_at now' /\ completed r = 0 /\ rescheduled r = 0 /\
  planned_day r
  = (if completed e =? 1 then planned_day e mod 5 + 1 else planned_day e) /\
  forall x, In x db' -> ~ In x (init ++ [e]) -> planned_day x = planned_day r.
Proof.
  intros Hreach Hle Hday' Hne Hrun.
  pose proof (reachable_planned_ok _ _ Hreach) as Hok.
  apply reachable_inv in Hreach as Hinv.
  pose proof (run_inv_ascending _ _ Hinv) as Hasc.
  destruct Hinv as (Hday & (t0 & Ht0 & Hlen & Hcons) & Hcyc & Hlast & Hres).
  apply day_mono in Hle. unfold today_at in *.
  set (day := now / 86400000) in *. set (day' := now' / 86400000) in *.
  rewrite length_app in Hlen. simpl in Hlen.
  set (b := t0 + Z.of_nat (List.length init)) in *.
  assert (Hb : JSDate.in_range b) by (unfold JSDate.in_range in *; lia).
  destruct (consecutive_snoc _ _ _ Hcons) as [_ He]. fold b in He.
  assert (Hbd : b <> day') by (intros <-; contradiction).
  set (k := Z.to_nat (day' - b - 1)).
  assert (Hk : day' = b + 1 + Z.of_nat k)
    by (unfold JSDate.in_range in *; lia).
  rewrite (api_status_gap (JSDate.toISODate day') (init ++ [e]) e b k) in Hrun;
    trivial; try (rewrite <- Hk; trivial);
    [|now apply (consecutive_last_entry t0)].
  injection Hrun as <- <-.
  assert (Hnext : next_day (init ++ [e])
                  = if completed e =? 1 then planned_day e mod 5 + 1
                    else planned_day e).
  { destruct (Z.eqb_spec (completed e) 1) as [Hc|Hc].
    - unfold next_day.
      assert (Hf : filter is_completed (init ++ [e])
                   = filter is_completed init ++ [e]).
      { rewrite filter_app. simpl. unfold is_completed at 2.
        now rewrite Hc. }
      rewrite Hf, latest_ascending_snoc
        by (rewrite <- Hf; now apply ascending_filter).
      unfold planned_ok in Hok. rewrite Forall_forall in Hok.
      rewrite Z.rem_mod_nonneg; [reflexivity| |lia].
      assert (1 <= planned_day e <= 5)
        by (apply Hok, in_app_iff; right; now left). lia.
    - destruct (Hlast init e eq_refl) as [_ [Hc'|Hp]]; [contradiction|].
      now symmetry. }
  cbn [date completed rescheduled planned_day].
  repeat split; trivial.
  intros x Hx Hnew.
  apply in_app_iff in Hx as [Hx|Hx]; [contradiction|].
  apply in_app_iff in Hx as [Hx|[<-|[]]]; [|reflexivity].
  apply in_map_iff in Hx as (c & <- & _). reflexivity.
Qed.

Lemma next_workout_witness :
  date (mkRow "2024-01-12" 2 0 0) = today_at (19734 * 86400000) /\
  completed (mkRow "2024-01-12" 2 0 0) = 0 /\
  rescheduled (mkRow "2024-01-12" 2 0 0) = 0 /\
  planned_day (mkRow "2024-01-12" 2 0 0)
  = (if completed (mkRow "2024-01-10" 2 0 0) =? 1
     then planned_day (mkRow "2024-01-10" 2 0 0) mod 5 + 1
     else planned_day (mkRow "2024-01-10" 2 0 0)) /\
  forall x,
    In x [mkRow "2024-01-08" 1 1 0; mkRow "2024-01-09" 2 0 1;
          mkRow "2024-01-10" 2 0 0; mkRow "2024-01-11" 2 0 1;
          mkRow "2024-01-12" 2 0 0] ->
    ~ In x ([mkRow "2024-01-08" 1 1 0; mkRow "2024-01-09" 2 0 1]
              ++ [mkRow "2024-01-10" 2 0 0]) ->
    planned_day x = planned_day (mkRow "2024-01-12" 2 0 0).
Proof.
  apply (next_workout (19732 * 86400000 + 1) (19734 * 86400000)
           [mkRow "2024-01-08" 1 1 0; mkRow "2024-01-09" 2 0 1]
           (mkRow "2024-01-10" 2 0 0) (mkRow "2024-01-12" 2 0 0)
           [mkRow "2024-01-08" 1 1 0; mkRow "2024-01-09" 2 0 1;
            mkRow "2024-01-10" 2 0 0; mkRow "2024-01-11" 2 0 1;
            mkRow "2024-01-12" 2 0 0]
           reachable_sample).
  - lia.
  - vm_compute. intuition discriminate.
  - vm_compute. discriminate.
  - vm_compute. reflexivity.
Defined.

(** ** The loop in a time zone *)
Section ZoneFacts.

Import JSDate JSDateFacts.

Lemma MakeDay_next (y mn d : Z) : MakeDay y mn (d + 1) = MakeDay y mn d + 1.
Proof. unfold MakeDay. ring. Qed.

(** With a fixed offset, [setDate(getDate() + 1)] moves a [Date] by 24
    hours. *)
Lemma setDate_next_fixed (z : Zone) (c t : Z) :
  fixed_offset z c -> setDate z t (getDate z t + 1) = t + msPerDay.
Proof.
  intros Hz. unfold setDate, getDate, LocalTime, UTC.
  destruct (Hz t) as [-> _].
  set (tl := t + c). set (day := tl / msPerDay).
  rewrite MakeDay_next.
  destruct (civil_valid day) as (_ & _ & ->).
  destruct (Hz ((day + 1) * msPerDay + tl mod msPerDay)) as [_ ->].
  subst day tl. unfold msPerDay. Z.div_mod_to_equations. lia.
Qed.

(** One turn of the loop, in any zone. *)
Lemma backfill_tz_step (z : Zone) (fuel : nat) (cur t : Z) (db : table) :
  cur < t ->
  backfill_tz z (S fuel) cur t db =
  match find (has_date (toISODate (cur / msPerDay))) db with
  | Some _ =>
      backfill_tz z fuel (setDate z cur (getDate z cur + 1)) t db
  | None =>
      backfill_tz z fuel (setDate z cur (getDate z cur + 1)) t
        (db ++ [mkRow (toISODate (cur / msPerDay)) (next_day db) 0 1])
  end.
Proof.
  intros H. cbn [backfill_tz]. destruct (Z.ltb_spec cur t); [|lia].
  unfold bind at 1 2. unfold select_by_date.
  destruct (find (has_date (toISODate (cur / msPerDay))) db) eqn:Hf;
    [reflexivity|].
  unfold bind. rewrite getNextWorkoutDay_run.
  unfold insert_rescheduled. rewrite insert_row_fresh; [reflexivity|].
  now apply find_has_date_None.
Qed.

Lemma backfill_tz_done (z : Zone) (fuel : nat) (cur t : Z) (db : table) :
  t <= cur -> backfill_tz z fuel cur t db = Returns tt db.
Proof.
  intros H. destruct fuel; cbn [backfill_tz];
    (destruct (Z.ltb_spec cur t); [lia|reflexivity]).
Qed.

Lemma backfill_no_fuel (cur t : Z) (db : table) :
  cur < t -> backfill 0 cur t db = OutOfFuel.
Proof.
  intros H. cbn [backfill]. destruct (Z.ltb_spec cur t); [reflexivity|lia].
Qed.

(** With a fixed offset the loop on instants is the loop on days. *)
Lemma backfill_tz_fixed (z : Zone) (c : Z) (fuel : nat) :
  fixed_offset z c ->
  forall k t db,
    backfill_tz z fuel (k * msPerDay) (t * msPerDay) db = backfill fuel k t db.
Proof.
  intros Hz. induction fuel as [|fuel IH]; intros k t db.
  - destruct (Z.lt_ge_cases k t) as [Hlt|Hge].
    + rewrite backfill_no_fuel by assumption. cbn [backfill_tz].
      destruct (Z.ltb_spec (k * msPerDay) (t * msPerDay)); [reflexivity|].
      unfold msPerDay in *. lia.
    + rewrite backfill_done by lia. apply backfill_tz_done.
      unfold msPerDay. lia.
  - destruct (Z.lt_ge_cases k t) as [Hlt|Hge].
    + rewrite backfill_tz_step by (unfold msPerDay; lia).
      rewrite backfill_step by assumption.
      rewrite (setDate_next_fixed z c) by assumption.
      replace (k * msPerDay / msPerDay) with k
        by (unfold msPerDay; now rewrite Z.div_mul).
      replace (k * msPerDay + msPerDay) with ((k + 1) * msPerDay) by ring.
      now rewrite !IH.
    + rewrite backfill_done by lia. apply backfill_tz_done.
      unfold msPerDay. lia.
Qed.

(** Cut off before its last turn, the loop does not return. *)
Lemma backfill_short (fuel : nat) :
  forall cur t db,
    (fuel < Z.to_nat (t - cur))%nat -> backfill fuel cur t db = OutOfFuel.
Proof.
  induction fuel as [|fuel IH]; intros cur t db Hfuel.
  - apply backfill_no_fuel. lia.
  - rewrite backfill_step by lia.
    destruct (find (has_date (toISODate cur)) db); apply IH; lia.
Qed.

(** With a fixed offset, the guarded body either runs out of turns or does
    what it does on days. *)
Lemma fill_gap_tz_fixed (z : Zone) (c : Z) (fuel : nat)
      (lastDate today : string) (db : table) :
  fixed_offset z c ->
  fill_gap_tz z fuel lastDate today db = OutOfFuel \/
  fill_gap_tz z fuel lastDate today db = fill_gap lastDate today db.
Proof.
  intros Hz. unfold fill_gap_tz, fill_gap.
  destruct (parse lastDate) as [d|]; [|now right].
  destruct (parse today) as [t|]; [|now right].
  cbv zeta. rewrite (setDate_next_fixed z c) by assumption.
  replace (d * msPerDay + msPerDay) with ((d + 1) * msPerDay) by ring.
  rewrite (backfill_tz_fixed z c) by assumption.
  destruct (Nat.lt_ge_cases fuel (Z.to_nat (t - (d + 1)))) as [Hlt|Hge].
  - left. now apply backfill_short.
  - right. apply backfill_fuel; [lia|assumption].
Qed.

Lemma fill_gap_tz_enough (z : Zone) (c : Z) (fuel : nat)
      (lastDate today : string) (d t : Z) (db : table) :
  fixed_offset z c ->
  parse lastDate = Some d -> parse today = Some t ->
  (Z.to_nat (t - d) <= fuel)%nat ->
  fill_gap_tz z fuel lastDate today db = fill_gap lastDate today db.
Proof.
  intros Hz Hd Ht Hfuel. unfold fill_gap_tz, fill_gap. rewrite Hd, Ht.
  cbv zeta. rewrite (setDate_next_fixed z c) by assumption.
  replace (d * msPerDay + msPerDay) with ((d + 1) * msPerDay) by ring.
  rewrite (backfill_tz_fixed z c) by assumption.
  apply backfill_fuel; lia.
Qed.

(** The handler in a zone, step by step. *)
Lemma api_status_tz_phases (z : Zone) (fuel : nat) (today : string) (db : table) :
  api_status_tz z fuel today db =
  match
    match latest db with
    | Some e =>
        if String.ltb (date e) today then fill_gap_tz z fuel (date e) today db
        else Returns tt db
    | None => Returns tt db
    end
  with
  | Returns _ db1 =>
      match find (has_date today) db1 with
      | Some r => Returns r db1
      | None =>
          Returns (mkRow today (next_day db1) 0 0)
            (db1 ++ [mkRow today (next_day db1) 0 0])
      end
  | Throws e => Throws e
  | OutOfFuel => OutOfFuel
  end.
Proof.
  unfold api_status_tz. unfold bind at 1. unfold select_last_entry.
  unfold bind at 1.
  assert (E : (match latest db with
               | Some e =>
                   if String.ltb (date e) today
                   then fill_gap_tz z fuel (date e) today else ret tt
               | None => ret tt
               end) db
              = match latest db with
                | Some e =>
                    if String.ltb (date e) today
                    then fill_gap_tz z fuel (date e) today db
                    else Returns tt db
                | None => Returns tt db
                end).
  { destruct (latest db) as [e|]; [|reflexivity].
    now destruct (String.ltb (date e) today). }
  rewrite E.
  destruct (match latest db with
            | Some e =>
                if String.ltb (date e) today
                then fill_gap_tz z fuel (date e) today db else Returns tt db
            | None => Returns tt db
            end) as [[] db1| |]; try reflexivity.
  unfold bind at 1. unfold select_by_date.
  destruct (find (has_date today) db1) as [r|] eqn:Hf; [reflexivity|].
  unfold bind. rewrite getNextWorkoutDay_run. unfold insert_planned.
  rewrite insert_row_fresh; [reflexivity|]. now apply find_has_date_None.
Qed.

(** With a fixed offset, what the handler returns in the zone it returns on
    days. *)
Lemma api_status_tz_returns (z : Zone) (c : Z) (fuel : nat) (today : string)
      (db : table) (r : row) (db' : table) :
  fixed_offset z c ->
  api_status_tz z fuel today db = Returns r db' ->
  api_status today db = Returns r db'.
Proof.
  intros Hz. rewrite api_status_tz_phases, api_status_phases.
  destruct (latest db) as [e|]; [|trivial].
  destruct (String.ltb (date e) today); [|trivial].
  destruct (fill_gap_tz_fixed z c fuel (date e) today db Hz) as [-> | ->];
    [discriminate|trivial].
Qed.

Lemma serve_tz_returns (z : Zone) (c : Z) (fuel : nat) (req : request)
      (now : Z) (db db' : table) :
  fixed_offset z c ->
  serve_tz z fuel req now db = Returns tt db' ->
  serve req now db = Returns tt db'.
Proof.
  intros Hz. destruct req; unfold serve_tz, serve, bind; [|trivial].
  destruct (api_status_tz z fuel (today_at now) db) as [r db0| |] eqn:Hs;
    try discriminate.
  now rewrite (api_status_tz_returns z c fuel _ _ _ _ Hz Hs).
Qed.

(** With a fixed offset, the tables the server comes to hold in the zone are
    tables it comes to hold on days. *)
Lemma reachable_tz_fixed (z : Zone) (c : Z) (now : Z) (db : table) :
  fixed_offset z c -> reachable_tz z now db -> reachable now db.
Proof.
  intros Hz. induction 1 as [now Hday|now now' db db' req fuel _ IH Hle Hday' Hrun].
  - now apply reach_start.
  - apply (reach_serve now now' db db' req); trivial.
    now apply (serve_tz_returns z c fuel).
Qed.

(** A server three hours behind UTC, on 2024-01-10, with a completed and a
    missed day behind it. *)
Lemma reachable_tz_sample :
  reachable_tz (mkZone (fun _ => -10800000) (fun _ => -10800000))
    (19732 * 86400000 + 1)
    [mkRow "2024-01-08" 1 1 0; mkRow "2024-01-09" 2 0 1; mkRow "2024-01-10" 2 0 0].
Proof.
  eapply (reach_tz_serve _ (19730 * 86400000 + 2) _
            [mkRow "2024-01-08" 1 1 0] _ GetStatus 2).
  - eapply (reach_tz_serve _ (19730 * 86400000 + 1) _
              [mkRow "2024-01-08" 1 0 0] _ PostComplete 0).
    + eapply (reach_tz_serve _ (19730 * 86400000) _ [] _ GetStatus 0).
      * apply (reach_tz_start _ (19730 * 86400000)).
        vm_compute. intuition discriminate.
      * lia.
      * vm_compute. intuition discriminate.
      * reflexivity.
    + lia.
    + vm_compute. intuition discriminate.
    + reflexivity.
  - lia.
  - vm_compute. intuition discriminate.
  - vm_compute. reflexivity.
Defined.

End ZoneFacts.

(** X12. On a server whose zone has a fixed offset from UTC, when the last
    entry and today are dated as the handlers date rows (calendar days of the
    years 0000 to 9999) and the loop is given a turn for each day between
    them, the table [/api/status] returns with has a row for every day from
    the last entry to today, whatever rows the table held before, and the row
    it returns is dated today.  The fixed offset is needed: under the Central
    European rules of 2024, with the last entry on 2024-03-29 and today
    2024-11-01, the loop passes from 2024-10-26 to 2024-10-28 and no row is
    written for 2024-10-27. *)
Theorem api_status_fills_gap :
  (forall (z : Zone) (c : Z) (fuel : nat) (today : string) (db : table)
          (e : row) (d t : Z),
     fixed_offset z c ->
     last_entry db e ->
     JSDate.in_range d -> JSDate.in_range t ->
     date e = JSDate.toISODate d -> today = JSDate.toISODate t ->
     (Z.to_nat (t - d) <= fuel)%nat ->
     exists r db',
       api_status_tz z fuel today db = Returns r db' /\
       date r = today /\
       forall c', d <= c' <= t -> In (JSDate.toISODate c') (map date db')) /\
  (exists r db',
     api_status_tz cet_2024 250 "2024-11-01" [mkRow "2024-03-29" 1 1 0]
     = Returns r db' /\
     existsb (has_date "2024-10-26") db' = true /\
     existsb (has_date "2024-10-27") db' = false /\
     existsb (has_date "2024-10-28") db' = true).
Proof.
  split.
  - intros z c fuel today db e d t Hz Hlast Hd Ht He Htoday Hfuel.
    assert (Hpd : JSDate.parse (date e) = Some d)
      by (rewrite He; now apply JSDateFacts.parse_toISODate).
    assert (Hpt : JSDate.parse today = Some t)
      by (rewrite Htoday; now apply JSDateFacts.parse_toISODate).
    destruct (api_status_covers today db e d t Hlast Hpd Hpt)
      as (r & db' & Hrun & Hdate & Hcov).
    exists r, db'. split; [|split; assumption].
    rewrite <- Hrun, api_status_tz_phases, api_status_phases.
    destruct (latest db) as [e'|] eqn:Hl; [|reflexivity].
    destruct (String.ltb (date e') today); [|reflexivity].
    assert (He' : date e' = date e).
    { apply latest_spec in Hl as [Hin' Hmax']. destruct Hlast as [Hin Hmax].
      apply ltb_antisym; [apply Hmax', Hin|apply Hmax, Hin']. }
    rewrite He'.
    now rewrite (fill_gap_tz_enough z c fuel (date e) today d t db Hz Hpd Hpt Hfuel).
  - assert (H : match api_status_tz cet_2024 250 "2024-11-01"
                        [mkRow "2024-03-29" 1 1 0] with
                | Returns _ db' =>
                    existsb (has_date "2024-10-26") db'
                    && negb (existsb (has_date "2024-10-27") db')
                    && existsb (has_date "2024-10-28") db'
                | _ => false
                end = true) by (vm_compute; reflexivity).
    destruct (api_status_tz cet_2024 250 "2024-11-01" [mkRow "2024-03-29" 1 1 0])
      as [r db'| |]; try discriminate.
    apply andb_prop in H as [H H28]. apply andb_prop in H as [H26 H27].
    apply negb_true_iff in H27. exists r, db'. repeat split; assumption.
Qed.

Lemma api_status_fills_gap_witness :
  exists r db',
    api_status_tz (mkZone (fun _ => -10800000) (fun _ => -10800000)) 3
      "2024-01-11" [mkRow "2024-01-05" 2 1 0; mkRow "2024-01-08" 3 0 0]
    = Returns r db' /\
    date r = "2024-01-11"%string /\
    forall c', 19730 <= c' <= 19733 -> In (JSDate.toISODate c') (map date db').
Proof.
  apply (proj1 api_status_fills_gap
           (mkZone (fun _ => -10800000) (fun _ => -10800000)) (-10800000) 3%nat
           "2024-01-11"%string
           [mkRow "2024-01-05" 2 1 0; mkRow "2024-01-08" 3 0 0]
           (mkRow "2024-01-08" 3 0 0) 19730 19733).
  - intros t. split; reflexivity.
  - split; [simpl; auto|]. intros r' [<-|[<-|[]]]; reflexivity.
  - unfold JSDate.in_range, JSDate.MIN_DAY, JSDate.MAX_DAY. lia.
  - unfold JSDate.in_range, JSDate.MIN_DAY, JSDate.MAX_DAY. lia.
  - reflexivity.
  - reflexivity.
  - simpl. lia.
Defined.

(** X13. On a server whose zone has a fixed offset from UTC, in every table
    the server comes to hold the rows are dated with consecutive days, in the
    order of the table, none after the day of the clock: no day between the
    first row and the last is missing, no date occurs twice, and
    [/api/calendar] returns the table as it is. *)
Theorem reachable_consecutive (z : Zone) (c : Z) (now : Z) (db : table) :
  fixed_offset z c ->
  reachable_tz z now db ->
  (exists t0,
     t0 + Z.of_nat (List.length db) <= now / 86400000 + 1 /\
     map date db = map JSDate.toISODate (day_seq t0 (List.length db))) /\
  unique_dates db /\
  api_calendar db = Returns db db.
Proof.
  intros Hz Hreach. apply reachable_days.
  now apply (reachable_tz_fixed z c).
Qed.

Lemma reachable_consecutive_witness :
  (exists t0,
     t0 + 3 <= (19732 * 86400000 + 1) / 86400000 + 1 /\
     map date [mkRow "2024-01-08" 1 1 0; mkRow "2024-01-09" 2 0 1;
               mkRow "2024-01-10" 2 0 0]
     = map JSDate.toISODate (day_seq t0 3)) /\
  unique_dates
    [mkRow "2024-01-08" 1 1 0; mkRow "2024-01-09" 2 0 1; mkRow "2024-01-10" 2 0 0].
Proof.
  destruct (reachable_consecutive
              (mkZone (fun _ => -10800000) (fun _ => -10800000)) (-10800000)
              (19732 * 86400000 + 1)
              [mkRow "2024-01-08" 1 1 0; mkRow "2024-01-09" 2 0 1;
               mkRow "2024-01-10" 2 0 0])
    as (Hdays & Hnd & _).
  - intros t. split; reflexivity.
  - exact reachable_tz_sample.
  - split; [exact Hdays|exact Hnd].
Defined.
